(** * Shecount: the quiz session of [chatbot_backend.py]

    A shallow embedding of the [ChatbotAPI] class of
    [src/chatbot_backend.py] and of the module-level names it reads, with
    the properties of its question / answer / evaluation cycle.

    Modelling choices.
    - A Python [str] is a [string]; the texts are taken to be ASCII, so
      [str.upper] and the whitespace test of [str.strip] are the ASCII ones
      (a byte above 127 is caseless and is no whitespace).
    - A Python [dict] with string keys is a [gmap string _].
    - The three collaborators (the Gemini chat, the sentence encoder and the
      Pinecone index) are oracles; each call is appended to a log kept in
      the state, and the oracle's answer may depend on the log so far.
    - Exceptions are values of [exn]; a method is a state transformer that
      yields [inl e] (raised) or [inr v] (returned), the state surviving a
      raise as the attributes of a Python object do.
    - An assignment to [self.current_question] or [self.correct_answer]
      is also appended to a log, so that a statement can tell an attribute
      that was written from one that kept its value.
    - A method reads the global name [index] when it runs; the object
      bound to it is a parameter of the methods, and [global_index] is
      the binding the module leaves once it is loaded.
    - [print] is not modelled. *)

From Stdlib Require Import Ascii String.
From stdpp Require Import gmap strings list.

(** ** Exceptions

    Every failure the program can meet derives from Python's
    [Exception]; [StopCandidateException] is the one class that
    [generate_question] and [generate_answer] tell apart.  Each value
    carries the text that [str(e)] gives. *)

Inductive exn : Type :=
| StopCandidateException (msg : string)
| ValueError (msg : string)
| IndexError (msg : string)
| AttributeError (msg : string)
| OtherException (msg : string).

Definition str_of_exn (e : exn) : string :=
  match e with
  | StopCandidateException m | ValueError m | IndexError m
  | AttributeError m | OtherException m => m
  end.

(** ** Python's [str] methods used by the program *)

Module Str.

(** Truth value of a string: only the empty one is falsy. *)
Definition truthy (s : string) : bool :=
  match s with
  | EmptyString => false
  | String _ _ => true
  end.

(** ASCII whitespace as [str.strip] sees it: TAB, LF, VT, FF, CR,
    FS, GS, RS, US and the blank. *)
Definition is_space (c : ascii) : bool :=
  match c with
  | "009" | "010" | "011" | "012" | "013"
  | "028" | "029" | "030" | "031" | " " => true
  | _ => false
  end%char.

Fixpoint all_space (s : string) : bool :=
  match s with
  | EmptyString => true
  | String c r => is_space c && all_space r
  end.

Fixpoint lstrip (s : string) : string :=
  match s with
  | EmptyString => EmptyString
  | String c r => if is_space c then lstrip r else s
  end.

Fixpoint rstrip (s : string) : string :=
  match s with
  | EmptyString => EmptyString
  | String c r =>
      match rstrip r with
      | EmptyString => if is_space c then EmptyString else String c EmptyString
      | r' => String c r'
      end
  end.

(** [s.strip()] *)
Definition strip (s : string) : string := rstrip (lstrip s).

(** [c.upper()] on one ASCII character: the letters a-z move down by 32. *)
Definition upper_char (c : ascii) : ascii :=
  let n := nat_of_ascii c in
  if (97 <=? n)%nat && (n <=? 122)%nat then ascii_of_nat (n - 32) else c.

(** [s.upper()] *)
Fixpoint upper (s : string) : string :=
  match s with
  | EmptyString => EmptyString
  | String c r => String (upper_char c) (upper r)
  end.

(** [s.startswith(p)] *)
Fixpoint startswith (p s : string) : bool :=
  match p, s with
  | EmptyString, _ => true
  | String _ _, EmptyString => false
  | String a p', String c r => if Ascii.eqb a c then startswith p' r else false
  end.

(** [p in s] *)
Fixpoint contains (p s : string) : bool :=
  startswith p s ||
  match s with
  | EmptyString => false
  | String _ r => contains p r
  end.

(** The scan shared by [replace] and [split] reads the text left to
    right and, after a match, passes over the rest of the matched
    pattern: [skip] counts the characters still to pass over. *)
Fixpoint replace_go (old new : string) (skip : nat) (s : string) : string :=
  match s with
  | EmptyString => EmptyString
  | String c r =>
      match skip with
      | S k => replace_go old new k r
      | O =>
          if startswith old s
          then new +:+ replace_go old new (String.length old - 1) r
          else String c (replace_go old new 0 r)
      end
  end.

Fixpoint interleave (new s : string) : string :=
  match s with
  | EmptyString => EmptyString
  | String c r => String c (new +:+ interleave new r)
  end.

(** [s.replace(old, new)]: every leftmost, non-overlapping occurrence
    of [old]; an empty [old] matches before every character and at the
    end. *)
Definition replace (old new s : string) : string :=
  match old with
  | EmptyString => new +:+ interleave new s
  | String _ _ => replace_go old new 0 s
  end.

Definition cons_head (c : ascii) (parts : list string) : list string :=
  match parts with
  | [] => [String c EmptyString]
  | h :: t => String c h :: t
  end.

Fixpoint split_go (sep : string) (skip : nat) (s : string) : list string :=
  match s with
  | EmptyString => [EmptyString]
  | String c r =>
      match skip with
      | S k => split_go sep k r
      | O =>
          if startswith sep s
          then EmptyString :: split_go sep (String.length sep - 1) r
          else cons_head c (split_go sep 0 r)
      end
  end.

(** [s.split(sep)]: a [ValueError] on an empty separator, else the
    pieces between the leftmost, non-overlapping occurrences of [sep]. *)
Definition split (sep s : string) : exn + list string :=
  match sep with
  | EmptyString => inl (ValueError "empty separator")
  | String _ _ => inr (split_go sep 0 s)
  end.

End Str.

(** [parts[i]] on a list: an [IndexError] out of range. *)
Definition getitem (parts : list string) (i : nat) : exn + string :=
  match parts !! i with
  | Some x => inr x
  | None => inl (IndexError "list index out of range")
  end.

(** The double quote, for the texts that contain one. *)
Definition dquote : string := String (ascii_of_nat 34) EmptyString.

(** The line feed of the triple-quoted templates. *)
Definition nl : string := String (ascii_of_nat 10) EmptyString.

(** ** Module-level names *)

Definition safety_instruction : string :=
  "Please ensure that the content you generate is safe, appropriate, and free from explicit or harmful language.".

(** What the global name [index] can be bound to. *)
Inductive index_object : Type :=
| NoneObject        (** [None] *)
| PineconeIndex     (** the handle [pc.Index(index_name)] *)
| ViewFunction.     (** the function [index] that serves the route [/] *)

(** Truth value of these objects: only [None] is falsy. *)
Definition truthy_object (o : index_object) : bool :=
  match o with
  | NoneObject => false
  | PineconeIndex | ViewFunction => true
  end.

(** Lines 28-44: [index] is the Pinecone handle when the API key is set
    (a non-empty string) and [pc.Index] does not raise, else [None]. *)
Definition configure_index (pinecone_api_key : option string)
    (connect : exn + unit) : index_object :=
  let pc :=
    match pinecone_api_key with
    | Some key => if Str.truthy key then Some tt else None
    | None => None
    end in
  match pc with
  | Some _ =>
      match connect with
      | inr _ => PineconeIndex
      | inl _ => NoneObject
      end
  | None => NoneObject
  end.

(** The bindings of the module's global names that matter here, made
    in the order of the file: line 39/41/44 binds [index] to the handle
    or [None], and the [def index()] of lines 206-208 binds the same
    name again, to the view function ([app.route] returns the function
    it decorates). *)
Definition module_globals (pinecone_api_key : option string)
    (connect : exn + unit) : gmap string index_object :=
  let g : gmap string index_object := ∅ in
  let g := <["index" := configure_index pinecone_api_key connect]> g in
  let g := <["index" := ViewFunction]> g in
  g.

(** The object a method finds under the name [index] when it runs. *)
Definition global_index (pinecone_api_key : option string)
    (connect : exn + unit) : index_object :=
  default NoneObject (module_globals pinecone_api_key connect !! "index").

(** ** The session object and the world around it *)

(** The attributes of a [ChatbotAPI] object ([self.chat] is the handle of
    the conversation; its history is the [SendMessage] calls of the log). *)
Record ChatbotAPI : Type := {
  current_question : string;
  correct_answer : string
}.

(** [ChatbotAPI.__init__] *)
Definition init : ChatbotAPI :=
  {| current_question := ""; correct_answer := "" |}.

Inductive attr : Type := CurrentQuestion | CorrectAnswer.

Global Instance attr_eq_dec : EqDecision attr.
Proof. solve_decision. Defined.

(** The values of the dictionary that [evaluate_answer] returns. *)
Inductive value : Type :=
| VBool (b : bool)
| VStr (s : string)
| VDict (d : gmap string string).

Section Session.

(** The vectors of the sentence encoder. *)
Context {vector : Type}.

(** The calls that reach a collaborator. *)
Inductive call : Type :=
| SendMessage (prompt : string)
| Encode (text : string)
| Query (namespace : string) (v : vector) (top_k : nat) (include_metadata : bool).

(** The state a method runs in: the object, the collaborator calls made
    so far and the attribute assignments made so far (oldest first). *)
Record state : Type := {
  self : ChatbotAPI;
  calls : list call;
  stores : list attr
}.

(** [chat log prompt]: what [self.chat.send_message(prompt).text] gives.
    [encoder log text]: what [sentence_model.encode(text).tolist()] gives.
    [pinecone log ns v]: the metadata of the matches of [index.query]. *)
Variable chat : list call -> string -> exn + string.
Variable encoder : list call -> string -> exn + vector.
Variable pinecone : list call -> string -> vector -> exn + list (gmap string string).

(** The object bound to the global name [index] when a method runs. *)
Variable index : index_object.

Definition M (A : Type) : Type := state -> (exn + A) * state.

Definition ret {A} (a : A) : M A := fun st => (inr a, st).

Definition raise {A} (e : exn) : M A := fun st => (inl e, st).

Definition bind {A B} (m : M A) (k : A -> M B) : M B :=
  fun st =>
    match m st with
    | (inr a, st') => k a st'
    | (inl e, st') => (inl e, st')
    end.

(** [try: body except Exception as e: handler e] *)
Definition try_except {A} (body : M A) (handler : exn -> M A) : M A :=
  fun st =>
    match body st with
    | (inr a, st') => (inr a, st')
    | (inl e, st') => handler e st'
    end.

Definition lift {A} (r : exn + A) : M A := fun st => (r, st).

Notation "'let!' x ':=' m 'in' k" := (bind m (fun x => k))
  (at level 10, x name, m at level 100, k at level 200).
Notation "'do!' m 'in' k" := (bind m (fun _ => k))
  (at level 10, m at level 100, k at level 200).

Definition get_current_question : M string :=
  fun st => (inr (current_question (self st)), st).

Definition get_correct_answer : M string :=
  fun st => (inr (correct_answer (self st)), st).

(** [self.current_question = q] *)
Definition set_current_question (q : string) : M unit :=
  fun st =>
    (inr tt,
     {| self := {| current_question := q;
                   correct_answer := correct_answer (self st) |};
        calls := calls st;
        stores := stores st ++ [CurrentQuestion] |}).

(** [self.correct_answer = a] *)
Definition set_correct_answer (a : string) : M unit :=
  fun st =>
    (inr tt,
     {| self := {| current_question := current_question (self st);
                   correct_answer := a |};
        calls := calls st;
        stores := stores st ++ [CorrectAnswer] |}).

Definition log_call (c : call) (st : state) : state :=
  {| self := self st; calls := calls st ++ [c]; stores := stores st |}.

(** [self.chat.send_message(prompt).text] *)
Definition send_message (prompt : string) : M string :=
  fun st => (chat (calls st) prompt, log_call (SendMessage prompt) st).

(** [sentence_model.encode(text).tolist()] *)
Definition encode (text : string) : M vector :=
  fun st => (encoder (calls st) text, log_call (Encode text) st).

(** [index.query(namespace=ns, vector=v, top_k=k, include_metadata=im).matches]:
    only the Pinecone handle has a [query]; on [None] and on a function
    the attribute lookup raises and nothing is sent. *)
Definition index_query (ns : string) (v : vector) (k : nat) (im : bool)
  : M (list (gmap string string)) :=
  match index with
  | PineconeIndex =>
      fun st => (pinecone (calls st) ns v, log_call (Query ns v k im) st)
  | NoneObject =>
      raise (AttributeError "'NoneType' object has no attribute 'query'")
  | ViewFunction =>
      raise (AttributeError "'function' object has no attribute 'query'")
  end.

(** *** [generate_question], lines 54-69 *)

Definition question_instruction (topic : string) : string :=
  "Generate a specific multiple choice or short answer question about "
  +:+ topic
  +:+ ". Make it educational and practical. Only provide the question, nothing else.".

Definition generate_question (topic : string) : M string :=
  let! question :=
    try_except
      (let! text := send_message (safety_instruction +:+ " " +:+ question_instruction topic) in
       let question := Str.strip text in
       if Str.startswith "Question:" question
       then ret (Str.strip (Str.replace "Question:" "" question))
       else ret question)
      (fun e =>
         match e with
         | StopCandidateException _ =>
             ret "What is the recommended amount for an emergency fund?"
         | _ =>
             ret "What factors should you consider when choosing a credit card?"
         end) in
  do! set_current_question question in
  ret question.

(** *** [generate_answer], lines 71-90 *)

Definition answer_instruction (question : string) : string :=
  "Provide a clear, concise answer to this question: "
  +:+ question
  +:+ ". Give a direct answer without extra formatting.".

Definition generate_answer : M string :=
  let! q := get_current_question in
  if negb (Str.truthy q) then ret "No question available." else
  let! correct :=
    try_except
      (let! text := send_message (safety_instruction +:+ " " +:+ answer_instruction q) in
       let correct := Str.strip text in
       if Str.startswith "Answer:" correct
       then ret (Str.strip (Str.replace "Answer:" "" correct))
       else ret correct)
      (fun e =>
         match e with
         | StopCandidateException _ =>
             ret "Please refer to financial literacy resources for the correct answer."
         | _ =>
             ret "Unable to generate answer at this time."
         end) in
  do! set_correct_answer correct in
  ret correct.

(** *** [get_relevant_resource], lines 134-157 *)

Definition get_relevant_resource (query_text : string)
  : M (option (gmap string string)) :=
  if negb (truthy_object index) then ret None else
  try_except
    (let! temp_emb := encode query_text in
     let! matches := index_query "auto_loan_resources" temp_emb 1 true in
     match matches with
     | top_match_metadata :: _ =>
         ret (Some
           (<["description" := default "" (top_match_metadata !! "description")]>
           (<["link" := default "#" (top_match_metadata !! "link")]>
           (<["title" := default "Financial Resource" (top_match_metadata !! "title")]>
            ∅))))
     | [] => ret None
     end)
    (fun _ => ret None).

(** *** [evaluate_answer], lines 92-132 *)

Definition evaluation_instruction (question user_answer answer : string) : string :=
  nl +:+ "        Question: " +:+ question
  +:+ nl +:+ "        User's Answer: " +:+ user_answer
  +:+ nl +:+ "        Correct Answer: " +:+ answer
  +:+ nl
  +:+ nl +:+ "        Compare the user's answer to the correct answer. If they are similar in meaning or the user's answer contains the key correct information, respond with "
  +:+ dquote +:+ "CORRECT" +:+ dquote +:+ ". Otherwise respond with "
  +:+ dquote +:+ "INCORRECT" +:+ dquote +:+ " followed by a brief explanation."
  +:+ nl +:+ "        ".

(** The two-term test of line 111. *)
Definition judged_correct (evaluation_text : string) : bool :=
  Str.contains "CORRECT" (Str.upper evaluation_text)
  && negb (Str.contains "INCORRECT" (Str.upper evaluation_text)).

(** The [try] statement of lines 107-132, given the prompt built at
    lines 99-105. *)
Definition grade_answer (prompt : string) : M (gmap string value) :=
  try_except
    (let! text := send_message prompt in
     let evaluation_text := Str.strip text in
     let is_correct := judged_correct evaluation_text in
     let! a := get_correct_answer in
     let result : gmap string value :=
       <["correct_answer" := VStr a]>
       (<["message" := VStr evaluation_text]>
       (<["is_correct" := VBool is_correct]> ∅)) in
     if negb is_correct && truthy_object index
     then
       let! resource := get_relevant_resource a in
       match resource with
       | Some r => ret (<["resource" := VDict r]> result)
       | None => ret result
       end
     else ret result)
    (fun e =>
       let! a := get_correct_answer in
       ret (<["correct_answer" := VStr (if Str.truthy a then a else "Answer not available")]>
           (<["message" := VStr ("Error evaluating answer: " +:+ str_of_exn e)]>
           (<["is_correct" := VBool false]> ∅)))).

Definition evaluate_answer (user_answer : string) : M (gmap string value) :=
  let! q := get_current_question in
  if negb (Str.truthy q)
  then ret (<["message" := VStr "No question available."]>
            (<["is_correct" := VBool false]> ∅))
  else
  let! a := get_correct_answer in
  do! (if negb (Str.truthy a) then generate_answer else ret a) in
  let! q := get_current_question in
  let! a := get_correct_answer in
  grade_answer
    (safety_instruction +:+ " " +:+ evaluation_instruction q user_answer a).

(** *** [handle_general_question], lines 159-166 *)

Definition general_instruction (question : string) : string :=
  "Answer this financial literacy question: " +:+ question
  +:+ ". Provide a helpful, educational response.".

Definition handle_general_question (question : string) : M string :=
  try_except
    (send_message (safety_instruction +:+ " " +:+ general_instruction question))
    (fun _ =>
       ret "I apologize, but I'm having trouble answering that question right now. Please try again.").

(** *** [generate_question_with_answer], lines 168-201 *)

Definition combined_instruction (topic : string) : string :=
  nl +:+ "        Create a financial literacy question about " +:+ topic
  +:+ " and provide its answer."
  +:+ nl +:+ "        Format your response exactly like this:"
  +:+ nl
  +:+ nl +:+ "        QUESTION: [Your question here]"
  +:+ nl +:+ "        ANSWER: [The correct answer here]"
  +:+ nl
  +:+ nl +:+ "        Make the question practical and educational."
  +:+ nl +:+ "        ".

Definition canned_question_malformed : string :=
  "What factors should you consider when choosing a credit card?".
Definition canned_answer_malformed : string :=
  "When choosing a credit card, consider: annual fees, interest rates (APR), rewards programs, credit limit, accepted locations, customer service, and any special benefits or perks.".
Definition canned_question_failed : string :=
  "What is an emergency fund and why is it important?".
Definition canned_answer_failed : string :=
  "An emergency fund is money set aside to cover unexpected expenses like medical bills, car repairs, or job loss. It's important because it provides financial security and prevents you from going into debt during emergencies.".

Definition generate_question_with_answer (topic : string) : M string :=
  try_except
    (let! text := send_message (safety_instruction +:+ " " +:+ combined_instruction topic) in
     let response_text := Str.strip text in
     if Str.contains "QUESTION:" response_text && Str.contains "ANSWER:" response_text
     then
       let! parts := lift (Str.split "ANSWER:" response_text) in
       let! part0 := lift (getitem parts 0) in
       let question_part := Str.strip (Str.replace "QUESTION:" "" part0) in
       let! part1 := lift (getitem parts 1) in
       let answer_part := Str.strip part1 in
       do! set_current_question question_part in
       do! set_correct_answer answer_part in
       ret question_part
     else
       do! set_current_question canned_question_malformed in
       do! set_correct_answer canned_answer_malformed in
       get_current_question)
    (fun _ =>
       do! set_current_question canned_question_failed in
       do! set_correct_answer canned_answer_failed in
       get_current_question).

End Session.

(** ** The request handlers, lines 210-267

    A request is seen through its method and through what
    [request.get_json()] gives: a parsed JSON value, or an exception
    (no JSON content type, malformed body).  A response is the body
    handed to [jsonify], or the empty text, with its status code. *)

Section Handlers.

Context {vector : Type}.

(** The numbers of JSON; the handlers see of them only whether they are
    zero and the name of their class ([int] or [float]). *)
Context {number : Type}.
Variable number_truthy : number -> bool.
Variable number_class : number -> string.

#[warnings="-register-all"]
Inductive json : Type :=
| JNull
| JBool (b : bool)
| JNum (n : number)
| JStr (s : string)
| JArr (l : list json)
| JObj (m : gmap string json).

(** What an f-string puts for a value that is no string ([str(v)]). *)
Variable py_str : json -> string.

Variable chat : list (@call vector) -> string -> exn + string.
Variable encoder : list (@call vector) -> string -> exn + vector.
Variable pinecone :
  list (@call vector) -> string -> vector -> exn + list (gmap string string).
Variable index : index_object.

Inductive http_method : Type := POST | OPTIONS.

Record request : Type := {
  method : http_method;
  get_json : exn + json
}.

Inductive response_body : Type :=
| EmptyText
| Jsonify (o : gmap string json).

Definition response : Type := response_body * nat.

(** Truth value of a parsed JSON value. *)
Definition truthy_json (v : json) : bool :=
  match v with
  | JNull => false
  | JBool b => b
  | JNum n => number_truthy n
  | JStr s => Str.truthy s
  | JArr l => match l with [] => false | _ :: _ => true end
  | JObj m => negb (bool_decide (size m = 0))
  end.

(** [v or {}] *)
Definition or_empty_dict (v : json) : json :=
  if truthy_json v then v else JObj ∅.

(** [data.get(key, default)]: only a dictionary has a [get]. *)
Definition dict_get (data : json) (key : string) (default_value : json)
  : exn + json :=
  match data with
  | JObj m => inr (default default_value (m !! key))
  | JNull => inl (AttributeError "'NoneType' object has no attribute 'get'")
  | JBool _ => inl (AttributeError "'bool' object has no attribute 'get'")
  | JNum n =>
      inl (AttributeError ("'" +:+ number_class n +:+ "' object has no attribute 'get'"))
  | JStr _ => inl (AttributeError "'str' object has no attribute 'get'")
  | JArr _ => inl (AttributeError "'list' object has no attribute 'get'")
  end.

(** [v.strip()]: only a string has a [strip]. *)
Definition json_strip (v : json) : exn + string :=
  match v with
  | JStr s => inr (Str.strip s)
  | JNull => inl (AttributeError "'NoneType' object has no attribute 'strip'")
  | JBool _ => inl (AttributeError "'bool' object has no attribute 'strip'")
  | JNum n =>
      inl (AttributeError ("'" +:+ number_class n +:+ "' object has no attribute 'strip'"))
  | JArr _ => inl (AttributeError "'list' object has no attribute 'strip'")
  | JObj _ => inl (AttributeError "'dict' object has no attribute 'strip'")
  end.

(** The text an f-string puts for a value. *)
Definition format_json (v : json) : string :=
  match v with
  | JStr s => s
  | _ => py_str v
  end.

(** The dictionary of [evaluate_answer] as [jsonify] sees it. *)
Definition value_to_json (v : value) : json :=
  match v with
  | VBool b => JBool b
  | VStr s => JStr s
  | VDict d => JObj (JStr <$> d)
  end.

Definition failure (text : string) (status : nat) : response :=
  (Jsonify (<["error" := JStr text]> (<["success" := JBool false]> ∅)), status).

Definition success (key : string) (v : json) : response :=
  (Jsonify (<[key := v]> (<["success" := JBool true]> ∅)), 200).

Notation "'let!' x ':=' m 'in' k" := (bind m (fun x => k))
  (at level 10, x name, m at level 100, k at level 200).
Notation "'do!' m 'in' k" := (bind m (fun _ => k))
  (at level 10, m at level 100, k at level 200).

(** [api_generate_question], lines 210-222 *)
Definition api_generate_question (req : request) : M response :=
  match method req with
  | OPTIONS => ret (EmptyText, 200)
  | POST =>
      try_except
        (let! body := lift (get_json req) in
         let data := or_empty_dict body in
         let! topic := lift (dict_get data "topic" (JStr "financial literacy")) in
         let! question := generate_question_with_answer chat (format_json topic) in
         ret (success "question" (JStr question)))
        (fun e => ret (failure (str_of_exn e) 500))
  end.

(** [api_submit_answer], lines 224-240 *)
Definition api_submit_answer (req : request) : M response :=
  match method req with
  | OPTIONS => ret (EmptyText, 200)
  | POST =>
      try_except
        (let! body := lift (get_json req) in
         let data := or_empty_dict body in
         let! user_answer := lift (dict_get data "answer" (JStr "")) in
         let! stripped := lift (json_strip user_answer) in
         if negb (Str.truthy stripped)
         then ret (failure "Answer cannot be empty" 400)
         else
           let! evaluation :=
             evaluate_answer chat encoder pinecone index (format_json user_answer) in
           ret (success "evaluation" (JObj (value_to_json <$> evaluation))))
        (fun e => ret (failure (str_of_exn e) 500))
  end.

(** [api_ask_question], lines 242-254 *)
Definition api_ask_question (req : request) : M response :=
  match method req with
  | OPTIONS => ret (EmptyText, 200)
  | POST =>
      try_except
        (let! body := lift (get_json req) in
         let data := or_empty_dict body in
         let! question := lift (dict_get data "question" (JStr "")) in
         let! text := handle_general_question chat (format_json question) in
         ret (success "response" (JStr text)))
        (fun e => ret (failure (str_of_exn e) 500))
  end.

(** [chatbot = ChatbotAPI()]: the global name gets a new object, whose
    two attributes [__init__] assigns. *)
Definition new_chatbot : @M vector unit :=
  fun st =>
    (inr tt,
     {| self := init;
        calls := calls st;
        stores := stores st ++ [CurrentQuestion; CorrectAnswer] |}).

(** [api_reset_chat], lines 256-267 *)
Definition api_reset_chat (req : request) : M response :=
  match method req with
  | OPTIONS => ret (EmptyText, 200)
  | POST =>
      try_except
        (do! new_chatbot in
         ret (success "message" (JStr "Chat reset successfully")))
        (fun e => ret (failure (str_of_exn e) 500))
  end.

End Handlers.

(** ** Notions used to state the properties *)

(** The decision rule in the words of the specification, on the reply
    as the model gave it: its uppercased form contains CORRECT and does
    not contain INCORRECT. *)
Definition spec_decision_rule (reply : string) : bool :=
  Str.contains "CORRECT" (Str.upper reply)
  && negb (Str.contains "INCORRECT" (Str.upper reply)).

(** A pattern whose first character is no whitespace. *)
Definition head_nonspace (p : string) : bool :=
  match p with
  | EmptyString => false
  | String a _ => negb (Str.is_space a)
  end.

(** A pattern whose last character is no whitespace. *)
Fixpoint last_nonspace (p : string) : bool :=
  match p with
  | EmptyString => false
  | String a EmptyString => negb (Str.is_space a)
  | String _ p' => last_nonspace p'
  end.

(** [sep] does not occur in [s]. *)
Definition absent (sep s : string) : Prop :=
  forall a b, s <> a +:+ sep +:+ b.

(** [pre] is the text of [s] before the first occurrence of [sep], and
    [post] the text after that occurrence. *)
Definition first_cut (sep s pre post : string) : Prop :=
  s = pre +:+ sep +:+ post /\
  forall a b, s = a +:+ sep +:+ b -> String.length pre <= String.length a.

(** [mid] is the text of [post] up to the next occurrence of [sep], or
    all of [post] when [sep] does not occur in it. *)
Definition up_to_next (sep post mid : string) : Prop :=
  (absent sep post /\ mid = post) \/ (exists rest, first_cut sep post mid rest).

(** No proper end of the separator is also a beginning of it. *)
Definition unbordered (sep : string) : Prop :=
  forall x p, sep = x +:+ p -> x <> EmptyString -> p <> EmptyString ->
    Str.startswith p sep = false.

(** The prompts of lines 59 and 79. *)
Definition question_prompt (topic : string) : string :=
  safety_instruction +:+ " " +:+ question_instruction topic.

Definition answer_prompt (question : string) : string :=
  safety_instruction +:+ " " +:+ answer_instruction question.

Definition is_chat_call {vector : Type} (c : @call vector) : bool :=
  match c with
  | SendMessage _ => true
  | Encode _ | Query _ _ _ _ => false
  end.

(** The number of chat calls in a log. *)
Definition chat_calls {vector : Type} (log : list (@call vector)) : nat :=
  length (List.filter is_chat_call log).

(** The resource built from the metadata of a match, lines 149-153. *)
Definition resource_of (metadata : gmap string string) : gmap string string :=
  {[ "title" := default "Financial Resource" (metadata !! "title");
     "link" := default "#" (metadata !! "link");
     "description" := default "" (metadata !! "description") ]}.

(** The dictionary of the short-circuit at line 94. *)
Definition no_question_result : gmap string value :=
  <["message" := VStr "No question available."]>
  (<["is_correct" := VBool false]> ∅).

(** The state in which [evaluate_answer] sends the grading prompt: the
    one it was called in, after [generate_answer] when no reference
    answer is stored. *)
Definition before_grading {vector : Type}
    (chat : list (@call vector) -> string -> exn + string)
    (st : @state vector) : @state vector :=
  if Str.truthy (correct_answer (self st)) then st
  else snd (generate_answer chat st).

(** The grading prompt of line 108. *)
Definition grading_prompt {vector : Type} (st : @state vector)
    (user_answer : string) : string :=
  safety_instruction +:+ " "
  +:+ evaluation_instruction (current_question (self st)) user_answer
        (correct_answer (self st)).

(** The prompt of line 180. *)
Definition combined_prompt (topic : string) : string :=
  safety_instruction +:+ " " +:+ combined_instruction topic.

(** The state after the one chat call of a method, with the attribute
    assignments [written] made and the object left as [obj]. *)
Definition after_call {vector : Type} (st : @state vector) (prompt : string)
    (obj : ChatbotAPI) (written : list attr) : @state vector :=
  {| self := obj;
     calls := calls st ++ [SendMessage prompt];
     stores := stores st ++ written |}.

(** *** Sample inputs

    A session with a question and its reference answer, a chat that
    gives one fixed reply, one that fails, an encoder and an index that
    answer; the vectors are lists of numbers. *)

Definition sample_state : @state (list nat) :=
  {| self := {| current_question := "What does APR stand for?";
                correct_answer := "Annual percentage rate" |};
     calls := [];
     stores := [] |}.

Definition fresh_state : @state (list nat) :=
  {| self := init; calls := []; stores := [] |}.

Definition reply_with (text : string)
  : list (@call (list nat)) -> string -> exn + string :=
  fun _ _ => inr text.

Definition chat_down : list (@call (list nat)) -> string -> exn + string :=
  fun _ _ => inl (OtherException "quota exceeded").

Definition sample_encoder
  : list (@call (list nat)) -> string -> exn + list nat :=
  fun _ _ => inr [3; 1; 4].

Definition sample_pinecone
  : list (@call (list nat)) -> string -> list nat
    -> exn + list (gmap string string) :=
  fun _ _ _ => inr [ {[ "title" := "Loans 101" ]} ].

(** The reply of the scenario of the specification. *)
Definition scenario_text : string :=
  "QUESTION: How much should you save?" +:+ nl
  +:+ "ANSWER: At least 20% of income.".

(** A reply with an empty question, and the session it leaves. *)
Definition empty_question_text : string := "QUESTION: ANSWER: 42".

Definition emptied_state : @state (list nat) :=
  snd (generate_question_with_answer (reply_with empty_question_text)
         "loans" fresh_state).

(** A reply with words before the first marker and a second ANSWER:. *)
Definition chatty_text : string :=
  "Sure! QUESTION: What is APR? ANSWER: A yearly rate. ANSWER: 12%".

(** A chat that gives the replies of a script in turn, one for each
    chat call made so far, and fails when the script is over. *)
Definition scripted (replies : list (exn + string))
  : list (@call (list nat)) -> string -> exn + string :=
  fun log _ =>
    default (inl (OtherException "no reply")) (replies !! chat_calls log).

(** A session with a question and no answer yet. *)
Definition unanswered_state : @state (list nat) :=
  {| self := {| current_question := "What does APR stand for?";
                correct_answer := "" |};
     calls := [];
     stores := [] |}.

(** Requests: the numbers are integers. *)
Definition int_truthy (n : Z) : bool := negb (n =? 0)%Z.
Definition int_class (n : Z) : string := "int".
Definition sample_py_str (v : @json Z) : string := "None".

Definition post (body : @json Z) : @request Z :=
  {| method := POST; get_json := inr body |}.

(** ** Facts about the [str] methods *)

Section StrFacts.

Import Str.

Lemma app_cons (c : ascii) (a b : string) :
  String c a +:+ b = String c (a +:+ b).
Proof. reflexivity. Qed.

Lemma app_empty_l (b : string) : EmptyString +:+ b = b.
Proof. reflexivity. Qed.

Lemma is_space_upper_char (c : ascii) :
  is_space (upper_char c) = is_space c.
Proof. destruct c as [[] [] [] [] [] [] [] []]; reflexivity. Qed.

Lemma upper_lstrip (s : string) : upper (lstrip s) = lstrip (upper s).
Proof.
  induction s as [|c r IH]; simpl; [reflexivity|].
  rewrite is_space_upper_char. destruct (is_space c); simpl; congruence.
Qed.

Lemma upper_rstrip (s : string) : upper (rstrip s) = rstrip (upper s).
Proof.
  induction s as [|c r IH]; simpl; [reflexivity|].
  rewrite <- IH, is_space_upper_char.
  destruct (rstrip r); simpl; [destruct (is_space c)|]; reflexivity.
Qed.

Lemma upper_strip (s : string) : upper (strip s) = strip (upper s).
Proof. unfold strip. by rewrite upper_rstrip, upper_lstrip. Qed.

Lemma startswith_app (p r : string) : startswith p (p +:+ r) = true.
Proof.
  induction p as [|a p IH]; [reflexivity|].
  rewrite app_cons. simpl. by rewrite Ascii.eqb_refl.
Qed.

Lemma startswith_spec (p s : string) :
  startswith p s = true <-> exists b, s = p +:+ b.
Proof.
  split.
  - revert s. induction p as [|a p IH]; intros s H.
    + by exists s.
    + destruct s as [|c r]; [discriminate|]. simpl in H.
      destruct (Ascii.eqb_spec a c) as [->|]; [|discriminate].
      destruct (IH _ H) as [b ->]. by exists b.
  - intros [b ->]. apply startswith_app.
Qed.

Lemma contains_spec (p s : string) :
  contains p s = true <-> exists a b, s = a +:+ p +:+ b.
Proof.
  split.
  - induction s as [|c r IH]; simpl; intros H.
    + rewrite orb_false_r in H. apply startswith_spec in H as [b Hb].
      by exists EmptyString, b.
    + apply orb_true_iff in H as [H|H].
      * apply startswith_spec in H as [b Hb]. by exists EmptyString, b.
      * destruct (IH H) as (a & b & ->). by exists (String c a), b.
  - intros (a & b & ->). induction a as [|c a IH].
    + rewrite app_empty_l.
      destruct (p +:+ b) eqn:E; simpl; rewrite <- E, startswith_app; reflexivity.
    + rewrite app_cons. simpl. rewrite IH. apply orb_true_r.
Qed.

Lemma absent_contains (p s : string) :
  absent p s <-> contains p s = false.
Proof.
  split.
  - intros H. destruct (contains p s) eqn:E; [|reflexivity].
    apply contains_spec in E as (a & b & E). by destruct (H a b).
  - intros H a b E.
    assert (contains p s = true) by (apply contains_spec; eauto). congruence.
Qed.

Lemma contains_lstrip (p s : string) :
  head_nonspace p = true -> contains p (lstrip s) = contains p s.
Proof.
  intros Hp. induction s as [|c r IH]; [reflexivity|].
  simpl lstrip. destruct (is_space c) eqn:Hc; [|reflexivity].
  rewrite IH. clear IH.
  destruct p as [|a p]; [discriminate|]. simpl in Hp.
  change (contains (String a p) (String c r))
    with ((if Ascii.eqb a c then startswith p r else false)
          || contains (String a p) r).
  destruct (Ascii.eqb_spec a c) as [->|]; [|reflexivity].
  rewrite Hc in Hp. discriminate.
Qed.

Lemma startswith_nonempty (p : string) :
  last_nonspace p = true -> startswith p EmptyString = false.
Proof. by destruct p. Qed.

Lemma startswith_rstrip (p s : string) :
  last_nonspace p = true -> startswith p (rstrip s) = startswith p s.
Proof.
  revert p. induction s as [|c r IH]; intros p Hp; [reflexivity|].
  destruct p as [|a p]; [discriminate|].
  assert (Hp' : p = EmptyString \/ last_nonspace p = true).
  { destruct p; [by left|by right]. }
  simpl rstrip. destruct (rstrip r) as [|c' r'] eqn:E.
  - destruct (is_space c) eqn:Hc; simpl.
    + destruct (Ascii.eqb_spec a c) as [->|]; [|reflexivity].
      destruct Hp' as [->|Hp'].
      * simpl in Hp. rewrite Hc in Hp. discriminate.
      * rewrite <- (IH p Hp'). symmetry. by apply startswith_nonempty.
    + destruct (Ascii.eqb a c); [|reflexivity].
      destruct Hp' as [->|Hp']; [reflexivity|]. by rewrite <- (IH p Hp').
  - simpl. destruct (Ascii.eqb a c); [|reflexivity].
    destruct Hp' as [->|Hp']; [reflexivity|]. by rewrite <- (IH p Hp').
Qed.

Lemma contains_empty (p : string) :
  last_nonspace p = true -> contains p EmptyString = false.
Proof. by destruct p. Qed.

Lemma contains_rstrip (p s : string) :
  last_nonspace p = true -> contains p (rstrip s) = contains p s.
Proof.
  intros Hp. induction s as [|c r IH]; [reflexivity|].
  pose proof (startswith_rstrip p (String c r) Hp) as Hs.
  simpl rstrip in *. destruct (rstrip r) as [|c' r'] eqn:E.
  - destruct (is_space c).
    + rewrite contains_empty by done. simpl.
      rewrite <- Hs, <- IH, startswith_nonempty, contains_empty by done.
      reflexivity.
    + simpl contains at 2. rewrite <- IH, <- Hs. reflexivity.
  - simpl contains at 2. rewrite <- IH, <- Hs. reflexivity.
Qed.

(** Trimming a text neither adds nor removes an occurrence of a pattern
    that begins and ends with a character that is no whitespace. *)
Lemma contains_strip (p s : string) :
  head_nonspace p = true -> last_nonspace p = true ->
  contains p (strip s) = contains p s.
Proof.
  intros H1 H2. unfold strip. by rewrite contains_rstrip, contains_lstrip.
Qed.

Lemma rstrip_empty (s : string) :
  rstrip s = EmptyString <-> all_space s = true.
Proof.
  induction s as [|c r IH]; simpl; [done|].
  destruct (rstrip r) eqn:E.
  - destruct (is_space c); simpl; [|done].
    split; [intros _; by apply IH|done].
  - split; [done|]. intros [_ H]%andb_true_iff. apply IH in H. discriminate.
Qed.

Lemma all_space_lstrip (s : string) :
  all_space (lstrip s) = all_space s.
Proof.
  induction s as [|c r IH]; simpl; [done|].
  destruct (is_space c) eqn:E; simpl; [done|]. by rewrite E.
Qed.

(** A trimmed text is empty exactly when the text is whitespace only. *)
Lemma strip_empty (s : string) :
  strip s = EmptyString <-> all_space s = true.
Proof. unfold strip. by rewrite rstrip_empty, all_space_lstrip. Qed.

(** The methods on a few texts. *)
Example strip_sample :
  strip (String (ascii_of_nat 9) " a b " +:+ nl) = "a b".
Proof. reflexivity. Qed.

Example upper_sample : upper "az{`AZ09 correct" = "AZ{`AZ09 CORRECT".
Proof. reflexivity. Qed.

Example replace_sample : replace "aa" "b" "aaaxaa" = "baxb".
Proof. reflexivity. Qed.

Example replace_empty_sample : replace "" "-" "abc" = "-a-b-c-".
Proof. reflexivity. Qed.

Example split_sample :
  split "ab" "xabababy" = inr ["x"; ""; ""; "y"]
  /\ split "ab" "ab" = inr [""; ""]
  /\ split "ab" "" = inr [""]
  /\ split "" "ab" = inl (ValueError "empty separator").
Proof. repeat split; reflexivity. Qed.

(** After a match the scan passes over the rest of the pattern. *)
Lemma split_go_skip (sep x r : string) :
  split_go sep (String.length x) (x +:+ r) = split_go sep 0 r.
Proof. induction x as [|c x IH]; [reflexivity|]. by rewrite app_cons. Qed.

Lemma split_go_match (sep r : string) :
  sep <> EmptyString ->
  split_go sep 0 (sep +:+ r) = EmptyString :: split_go sep 0 r.
Proof.
  destruct sep as [|a sep]; [done|]. intros _.
  rewrite app_cons.
  change (split_go (String a sep) 0 (String a (sep +:+ r)))
    with (if startswith (String a sep) (String a (sep +:+ r))
          then EmptyString
               :: split_go (String a sep) (String.length (String a sep) - 1) (sep +:+ r)
          else cons_head a (split_go (String a sep) 0 (sep +:+ r))).
  rewrite <- app_cons, startswith_app.
  replace (String.length (String a sep) - 1) with (String.length sep)
    by (simpl; lia).
  by rewrite split_go_skip.
Qed.

Lemma split_go_no_match (sep : string) (c : ascii) (r : string) :
  startswith sep (String c r) = false ->
  split_go sep 0 (String c r) = cons_head c (split_go sep 0 r).
Proof. intros H. simpl. by rewrite H. Qed.

Lemma first_cut_nil (sep post : string) :
  first_cut sep (sep +:+ post) EmptyString post.
Proof. split; [reflexivity|]. intros a b _. simpl. lia. Qed.

Lemma first_cut_cons (sep : string) (c : ascii) (r pre post : string) :
  startswith sep (String c r) = false ->
  first_cut sep r pre post ->
  first_cut sep (String c r) (String c pre) post.
Proof.
  intros Hs [-> Hmin]. split; [reflexivity|].
  intros [|c' a] b E.
  - rewrite app_empty_l in E.
    assert (startswith sep (String c (pre +:+ sep +:+ post)) = true)
      by (apply startswith_spec; eauto).
    congruence.
  - rewrite app_cons in E. injection E as -> E.
    simpl. apply le_n_S. by eapply Hmin.
Qed.

Lemma first_cut_uncons (sep : string) (c : ascii) (r pre post : string) :
  first_cut sep (String c r) (String c pre) post ->
  startswith sep (String c r) = false /\ first_cut sep r pre post.
Proof.
  intros [E Hmin]. split.
  - destruct (startswith sep (String c r)) eqn:Hs; [|reflexivity].
    apply startswith_spec in Hs as [b Hb].
    specialize (Hmin EmptyString b Hb). simpl in Hmin. lia.
  - rewrite app_cons in E. injection E as E. split; [done|].
    intros a b Hab. specialize (Hmin (String c a) b).
    rewrite app_cons, Hab in Hmin. specialize (Hmin eq_refl).
    simpl in Hmin. lia.
Qed.

(** A text that contains the separator has a first occurrence of it. *)
Lemma contains_first_cut (sep s : string) :
  contains sep s = true -> exists pre post, first_cut sep s pre post.
Proof.
  induction s as [|c r IH]; intros H.
  - simpl in H. rewrite orb_false_r in H.
    apply startswith_spec in H as [b ->]. eauto using first_cut_nil.
  - destruct (startswith sep (String c r)) eqn:Hs.
    + apply startswith_spec in Hs as [b ->]. eauto using first_cut_nil.
    + simpl in H. simpl in Hs. rewrite Hs in H. simpl in H.
      destruct (IH H) as (pre & post & Hcut).
      exists (String c pre), post. by apply first_cut_cons.
Qed.

Lemma first_cut_contains (sep s pre post : string) :
  first_cut sep s pre post -> contains sep s = true.
Proof. intros [-> _]. apply contains_spec. eauto. Qed.

(** [split] cuts at the first occurrence of the separator. *)
Lemma split_go_first_cut (sep s pre post : string) :
  sep <> EmptyString ->
  first_cut sep s pre post ->
  split_go sep 0 s = pre :: split_go sep 0 post.
Proof.
  intros Hsep. revert s. induction pre as [|c pre IH]; intros s Hcut.
  - destruct Hcut as [-> _]. rewrite app_empty_l. by apply split_go_match.
  - destruct s as [|c' r].
    { destruct Hcut as [E _]. discriminate E. }
    assert (c' = c) as ->.
    { destruct Hcut as [E _]. rewrite app_cons in E. by injection E. }
    apply first_cut_uncons in Hcut as [Hs Hcut].
    rewrite split_go_no_match by done. by rewrite (IH _ Hcut).
Qed.

(** Without the separator [split] gives the text as its one piece. *)
Lemma split_go_absent (sep s : string) :
  absent sep s -> split_go sep 0 s = [s].
Proof.
  induction s as [|c r IH]; intros H; [reflexivity|].
  assert (Hs : startswith sep (String c r) = false).
  { destruct (startswith sep (String c r)) eqn:Hs; [|reflexivity].
    apply startswith_spec in Hs as [b Hb]. by destruct (H EmptyString b). }
  rewrite split_go_no_match by done. rewrite IH; [reflexivity|].
  intros a b ->. by destruct (H (String c a) b).
Qed.

(** The second piece of [split] ends at the next separator. *)
Lemma split_go_second (sep s pre post mid : string) :
  sep <> EmptyString ->
  first_cut sep s pre post ->
  up_to_next sep post mid ->
  exists rest, split_go sep 0 s = pre :: mid :: rest.
Proof.
  intros Hsep Hcut Hmid. rewrite (split_go_first_cut _ _ _ _ Hsep Hcut).
  destruct Hmid as [[Habs ->]|[rest Hcut']].
  - rewrite split_go_absent by done. by exists [].
  - rewrite (split_go_first_cut _ _ _ _ Hsep Hcut'). eauto.
Qed.

(** Every text has a piece up to the next separator. *)
Lemma up_to_next_exists (sep post : string) :
  exists mid, up_to_next sep post mid.
Proof.
  destruct (contains sep post) eqn:E.
  - apply contains_first_cut in E as (mid & rest & H).
    exists mid. right. eauto.
  - exists post. left. split; [|reflexivity]. by apply absent_contains.
Qed.

End StrFacts.

(** ** Facts about the session operations *)

Section SessionFacts.

Context {vector : Type}.
Variable chat : list (@call vector) -> string -> exn + string.
Variable encoder : list (@call vector) -> string -> exn + vector.
Variable pinecone :
  list (@call vector) -> string -> vector -> exn + list (gmap string string).

(** The [str] methods stay folded while a method is run symbolically. *)
Local Arguments Str.startswith : simpl never.
Local Arguments Str.contains : simpl never.
Local Arguments Str.strip : simpl never.
Local Arguments Str.replace : simpl never.
Local Arguments Str.split : simpl never.
Local Arguments Str.upper : simpl never.
Local Arguments Str.truthy : simpl never.

(** Unfold the plumbing of the state transformers. *)
Ltac run :=
  unfold bind, try_except, ret, raise, lift, send_message, encode,
    get_current_question, get_correct_answer, set_current_question,
    set_correct_answer, log_call; simpl.

(** [generate_answer] returns: the text it stored, or the fixed text of
    its short-circuit. *)
Lemma generate_answer_returns (st : state) :
  exists a, fst (generate_answer chat st) = inr a.
Proof.
  unfold generate_answer. run.
  destruct (Str.truthy (current_question (self st))); simpl; [|eauto].
  destruct (chat _ _) as [[]|text]; simpl; eauto.
  destruct (Str.startswith _ _); simpl; eauto.
Qed.

(** [generate_answer] never assigns [current_question]. *)
Lemma generate_answer_question (st : state) :
  current_question (self (snd (generate_answer chat st)))
  = current_question (self st).
Proof.
  unfold generate_answer. run.
  destruct (Str.truthy (current_question (self st))); simpl; [|done].
  destruct (chat _ _) as [[]|text]; simpl; try done.
  destruct (Str.startswith _ _); simpl; done.
Qed.

(** With a question stored, [evaluate_answer] is the grading of lines
    107-132 run in the state [before_grading]. *)
Lemma evaluate_answer_graded (index : index_object) (user_answer : string)
    (st : state) :
  current_question (self st) <> EmptyString ->
  evaluate_answer chat encoder pinecone index user_answer st
  = grade_answer chat encoder pinecone index
      (grading_prompt (before_grading chat st) user_answer)
      (before_grading chat st).
Proof.
  intros Hq. unfold evaluate_answer, before_grading, grading_prompt.
  unfold bind at 1, get_current_question at 1.
  destruct (current_question (self st)) as [|c q] eqn:Eq; [done|]. simpl.
  unfold bind at 1, get_correct_answer at 1.
  destruct (Str.truthy (correct_answer (self st))) eqn:Ea; simpl.
  - run. by rewrite Eq.
  - unfold bind at 1.
    destruct (generate_answer_returns st) as [a Ha].
    destruct (generate_answer chat st) as [r st1] eqn:E. simpl in Ha. subst r.
    run. reflexivity.
Qed.

Lemma no_question_result_eq :
  no_question_result
  = {[ "is_correct" := VBool false;
       "message" := VStr "No question available." ]}.
Proof. vm_compute. reflexivity. Qed.

(** C2. In every session state whose [current_question] is empty,
    [evaluate_answer] returns, for any answer of the user, exactly the
    dictionary with [is_correct] false and the message
    [No question available.], and it does so in the state it was called
    in: the log of collaborator calls (chat, encoder, index) is the one
    it started with. *)
Theorem evaluate_answer_without_question (index : index_object)
    (user_answer : string) (st : state) :
  current_question (self st) = EmptyString ->
  evaluate_answer chat encoder pinecone index user_answer st
  = (inr {[ "is_correct" := VBool false;
            "message" := VStr "No question available." ]}, st).
Proof.
  intros Hq. rewrite <- no_question_result_eq.
  unfold evaluate_answer. run. by rewrite Hq.
Qed.

(** C9. [handle_general_question] returns the text of the model as it
    is when the call succeeds and the fixed apology when it fails, and on
    both paths it leaves the object ([current_question] and
    [correct_answer]) as it was and assigns no attribute. *)
Theorem handle_general_question_frame (question : string) (st : state) :
  let r := handle_general_question chat question st in
  self (snd r) = self st /\
  stores (snd r) = stores st /\
  fst r =
    match chat (calls st) (safety_instruction +:+ " " +:+ general_instruction question) with
    | inr text => inr text
    | inl _ =>
        inr "I apologize, but I'm having trouble answering that question right now. Please try again."
    end.
Proof.
  unfold handle_general_question. run.
  by destruct (chat _ _).
Qed.

(** C10. A session whose [current_question] is the empty string, as
    the one [__init__] builds, is treated as one without a question:
    [generate_answer] returns the text [No question available.] and
    [evaluate_answer] the dictionary of that short-circuit, both without
    any call and without any assignment. *)
Theorem empty_question_is_no_question (index : index_object)
    (user_answer : string) (st : state) :
  current_question (self st) = EmptyString ->
  current_question init = EmptyString /\
  generate_answer chat st = (inr "No question available.", st) /\
  evaluate_answer chat encoder pinecone index user_answer st
  = (inr no_question_result, st).
Proof.
  intros Hq. split; [reflexivity|]. split.
  - unfold generate_answer. run. by rewrite Hq.
  - unfold evaluate_answer. run. by rewrite Hq.
Qed.

Lemma markers_strip (text : string) :
  Str.contains "QUESTION:" (Str.strip text) && Str.contains "ANSWER:" (Str.strip text)
  = Str.contains "QUESTION:" text && Str.contains "ANSWER:" text.
Proof. by rewrite !contains_strip. Qed.

(** C7. When the text of the model lacks the marker QUESTION: or the
    marker ANSWER:, [generate_question_with_answer] stores one fixed
    pair, the same for every such text, returns its question and makes
    no call besides the one that gave the text; when the call fails it
    stores the other fixed pair, again with no further call. *)
Theorem generate_question_with_answer_fallback (topic : string) (st : state) :
  (forall text,
     chat (calls st) (combined_prompt topic) = inr text ->
     Str.contains "QUESTION:" text = false \/ Str.contains "ANSWER:" text = false ->
     generate_question_with_answer chat topic st
     = (inr canned_question_malformed,
        after_call st (combined_prompt topic)
          {| current_question := canned_question_malformed;
             correct_answer := canned_answer_malformed |}
          [CurrentQuestion; CorrectAnswer])) /\
  (forall e,
     chat (calls st) (combined_prompt topic) = inl e ->
     generate_question_with_answer chat topic st
     = (inr canned_question_failed,
        after_call st (combined_prompt topic)
          {| current_question := canned_question_failed;
             correct_answer := canned_answer_failed |}
          [CurrentQuestion; CorrectAnswer])).
Proof.
  split.
  - intros text Hc Hm.
    unfold generate_question_with_answer, after_call. run.
    fold (combined_prompt topic). rewrite Hc. simpl.
    rewrite markers_strip.
    replace (Str.contains "QUESTION:" text && Str.contains "ANSWER:" text)
      with false by (destruct Hm as [-> | ->]; by rewrite ?andb_false_r).
    simpl. by rewrite <- app_assoc.
  - intros e Hc.
    unfold generate_question_with_answer, after_call. run.
    fold (combined_prompt topic). rewrite Hc. simpl.
    by rewrite <- app_assoc.
Qed.

(** [get_relevant_resource] swallows every failure, and touches no
    attribute. *)
Lemma get_relevant_resource_returns (index : index_object)
    (query_text : string) (st : state) :
  (exists r, fst (get_relevant_resource encoder pinecone index query_text st) = inr r)
  /\ self (snd (get_relevant_resource encoder pinecone index query_text st)) = self st
  /\ stores (snd (get_relevant_resource encoder pinecone index query_text st)) = stores st.
Proof.
  unfold get_relevant_resource, index_query. run.
  destruct index; simpl; eauto.
  - destruct (encoder _ _); simpl; eauto.
    destruct (pinecone _ _ _) as [|[|m ms]]; simpl; eauto.
  - destruct (encoder _ _); simpl; eauto.
Qed.

(** The test of line 111 on the trimmed reply is the rule of the
    specification on the reply itself. *)
Lemma judged_correct_strip (reply : string) :
  judged_correct (Str.strip reply) = spec_decision_rule reply.
Proof.
  unfold judged_correct, spec_decision_rule.
  by rewrite upper_strip, !contains_strip.
Qed.

(** What the grading returns when the chat call succeeds. *)
Lemma grade_answer_success (index : index_object) (prompt reply : string)
    (st : state) :
  chat (calls st) prompt = inr reply ->
  exists result st',
    grade_answer chat encoder pinecone index prompt st = (inr result, st') /\
    self st' = self st /\
    result !! "is_correct" = Some (VBool (spec_decision_rule reply)) /\
    result !! "message" = Some (VStr (Str.strip reply)) /\
    result !! "correct_answer" = Some (VStr (correct_answer (self st))).
Proof.
  intros Hc. unfold grade_answer. run. rewrite Hc. simpl.
  rewrite judged_correct_strip.
  destruct (negb (spec_decision_rule reply) && truthy_object index); simpl.
  - match goal with
    | |- context [get_relevant_resource _ _ _ ?q ?s] =>
        destruct (get_relevant_resource_returns index q s) as ([r Hr] & Hs & _);
        destruct (get_relevant_resource encoder pinecone index q s) as [x st1]
    end.
    simpl in Hr, Hs. subst x.
    destruct r; simpl; eexists _, _; (split; [reflexivity|]);
      (split; [exact Hs|]); by simplify_map_eq.
  - eexists _, _. split; [reflexivity|]. split; [reflexivity|].
    by simplify_map_eq.
Qed.

(** What the grading returns when the chat call fails. *)
Lemma grade_answer_failure (index : index_object) (prompt : string) (e : exn)
    (st : state) :
  chat (calls st) prompt = inl e ->
  grade_answer chat encoder pinecone index prompt st
  = (inr {[ "is_correct" := VBool false;
            "message" := VStr ("Error evaluating answer: " +:+ str_of_exn e);
            "correct_answer" :=
              VStr (if Str.truthy (correct_answer (self st))
                    then correct_answer (self st)
                    else "Answer not available") ]},
     after_call st prompt (self st) []).
Proof.
  intros Hc. unfold grade_answer, after_call. run. rewrite Hc. simpl.
  rewrite app_nil_r. reflexivity.
Qed.

(** C1. When the grading call succeeds, the [is_correct] field of the
    result is true exactly when the uppercased reply contains CORRECT
    and does not contain INCORRECT; by that rule the replies of the
    decision table are judged true, false, true, false and (the empty
    reply) false. *)
Theorem evaluate_answer_decision_rule (index : index_object)
    (user_answer : string) (st : state) (reply : string) :
  current_question (self st) <> EmptyString ->
  chat (calls (before_grading chat st))
       (grading_prompt (before_grading chat st) user_answer) = inr reply ->
  (exists result st',
     evaluate_answer chat encoder pinecone index user_answer st = (inr result, st') /\
     result !! "is_correct" = Some (VBool (spec_decision_rule reply))) /\
  spec_decision_rule "CORRECT" = true /\
  spec_decision_rule "INCORRECT, explanation" = false /\
  spec_decision_rule "correct! well done" = true /\
  spec_decision_rule "Your answer is incorrect" = false /\
  spec_decision_rule "" = false.
Proof.
  intros Hq Hc. split; [|by vm_compute].
  rewrite evaluate_answer_graded by done.
  destruct (grade_answer_success index _ _ _ Hc) as (result & st' & E & _ & H & _).
  eauto.
Qed.

(** C6. [evaluate_answer] always returns a dictionary and never an
    exception; when the grading call fails with an exception [e], the
    dictionary has [is_correct] false, a message that carries the text of
    [e], and as [correct_answer] the stored reference answer, or the text
    [Answer not available] when that answer is empty. *)
Theorem evaluate_answer_never_raises (index : index_object)
    (user_answer : string) (st : state) :
  (exists result, fst (evaluate_answer chat encoder pinecone index user_answer st) = inr result) /\
  (forall e,
     current_question (self st) <> EmptyString ->
     chat (calls (before_grading chat st))
          (grading_prompt (before_grading chat st) user_answer) = inl e ->
     evaluate_answer chat encoder pinecone index user_answer st
     = (inr {[ "is_correct" := VBool false;
               "message" := VStr ("Error evaluating answer: " +:+ str_of_exn e);
               "correct_answer" :=
                 VStr (if Str.truthy (correct_answer (self (before_grading chat st)))
                       then correct_answer (self (before_grading chat st))
                       else "Answer not available") ]},
        after_call (before_grading chat st)
          (grading_prompt (before_grading chat st) user_answer)
          (self (before_grading chat st)) [])).
Proof.
  split.
  - destruct (current_question (self st)) as [|c q] eqn:Eq.
    + unfold evaluate_answer. run. rewrite Eq. simpl. eauto.
    + rewrite evaluate_answer_graded by (by rewrite Eq).
      set (st1 := before_grading chat st).
      set (prompt := grading_prompt st1 user_answer).
      destruct (chat (calls st1) prompt) as [e|reply] eqn:Hc.
      * rewrite (grade_answer_failure index _ _ _ Hc). simpl. eauto.
      * destruct (grade_answer_success index _ _ _ Hc) as (result & st' & E & _).
        rewrite E. simpl. eauto.
  - intros e Hq Hc. rewrite evaluate_answer_graded by done.
    by apply grade_answer_failure.
Qed.

(** The name [index] is bound to the view function when a request is
    served, whatever the Pinecone configuration was. *)
Lemma global_index_rebound (pinecone_api_key : option string)
    (connect : exn + unit) :
  global_index pinecone_api_key connect = ViewFunction.
Proof. unfold global_index, module_globals. by simplify_map_eq. Qed.

(** The collaborator calls of a successful grading, for any binding of
    the name [index]: the chat call, then, when the reply is judged
    incorrect and [index] is truthy, the encoding of the reference
    answer, then the query, which only a Pinecone handle can receive and
    only once the encoder has answered. *)
Lemma grade_answer_calls (index : index_object) (prompt reply : string)
    (st : state) :
  chat (calls st) prompt = inr reply ->
  calls (snd (grade_answer chat encoder pinecone index prompt st))
  = calls st ++ SendMessage prompt ::
      (if negb (spec_decision_rule reply) && truthy_object index
       then Encode (correct_answer (self st)) ::
              match index, encoder (calls st ++ [SendMessage prompt])
                                   (correct_answer (self st)) with
              | PineconeIndex, inr v => [Query "auto_loan_resources" v 1 true]
              | _, _ => []
              end
       else []).
Proof.
  intros Hc. unfold grade_answer. run. rewrite Hc. simpl.
  rewrite judged_correct_strip.
  destruct (spec_decision_rule reply); simpl; [done|].
  unfold get_relevant_resource, index_query. run.
  destruct index; simpl; [done| |].
  - destruct (encoder _ _); simpl.
    + by rewrite <- app_assoc.
    + destruct (pinecone _ _ _) as [|[|m ms]]; simpl;
        by rewrite <- !app_assoc.
  - destruct (encoder _ _); simpl; by rewrite <- app_assoc.
Qed.

(** With the view function under the name [index], no resource is ever
    attached. *)
Lemma grade_answer_no_resource (prompt : string) (st : state) :
  forall result st',
    grade_answer chat encoder pinecone ViewFunction prompt st = (inr result, st') ->
    result !! "resource" = None.
Proof.
  intros result st'. unfold grade_answer, get_relevant_resource, index_query.
  run. destruct (chat _ _) as [e|reply]; simpl.
  - intros [= <- _]. by simplify_map_eq.
  - destruct (negb _); simpl.
    + destruct (encoder _ _); simpl; intros [= <- _]; by simplify_map_eq.
    + intros [= <- _]. by simplify_map_eq.
Qed.

(** C5 (as the program runs). Once the module is loaded the name [index]
    denotes the view function of the route [/], whether or not Pinecone
    was configured.  So a successful grading makes the chat call and,
    when the reply is judged incorrect, the encoder call, configured or
    not; the index itself is never queried and the result never has a
    [resource]. *)
Theorem evaluate_answer_lookup_with_rebound_index
    (pinecone_api_key : option string) (connect : exn + unit)
    (user_answer : string) (st : state) (reply : string) :
  current_question (self st) <> EmptyString ->
  chat (calls (before_grading chat st))
       (grading_prompt (before_grading chat st) user_answer) = inr reply ->
  let r := evaluate_answer chat encoder pinecone
             (global_index pinecone_api_key connect) user_answer st in
  calls (snd r)
  = calls (before_grading chat st)
    ++ SendMessage (grading_prompt (before_grading chat st) user_answer)
       :: (if spec_decision_rule reply then []
           else [Encode (correct_answer (self (before_grading chat st)))])
  /\ (forall result, fst r = inr result -> result !! "resource" = None).
Proof.
  intros Hq Hc r. subst r. rewrite global_index_rebound.
  rewrite evaluate_answer_graded by done. split.
  - rewrite (grade_answer_calls ViewFunction _ _ _ Hc).
    by destruct (spec_decision_rule reply).
  - intros result Hr.
    destruct (grade_answer chat encoder pinecone ViewFunction _ _) as [x st'] eqn:E.
    simpl in Hr. subst x. by eapply grade_answer_no_resource.
Qed.

(** The run of [generate_question_with_answer] on a text with both
    markers: the pieces come from the first ANSWER: of the trimmed text. *)
Lemma generate_question_with_answer_parse (topic : string) (st : state)
    (text pre post mid : string) :
  chat (calls st) (combined_prompt topic) = inr text ->
  Str.contains "QUESTION:" text = true ->
  first_cut "ANSWER:" (Str.strip text) pre post ->
  up_to_next "ANSWER:" post mid ->
  generate_question_with_answer chat topic st
  = (inr (Str.strip (Str.replace "QUESTION:" "" pre)),
     after_call st (combined_prompt topic)
       {| current_question := Str.strip (Str.replace "QUESTION:" "" pre);
          correct_answer := Str.strip mid |}
       [CurrentQuestion; CorrectAnswer]).
Proof.
  intros Hc Hq Hcut Hmid.
  assert (Ha : Str.contains "ANSWER:" text = true).
  { rewrite <- (contains_strip "ANSWER:" text) by done.
    by eapply first_cut_contains. }
  destruct (split_go_second "ANSWER:" _ _ _ _ ltac:(done) Hcut Hmid) as [rest E].
  unfold generate_question_with_answer, after_call. run.
  fold (combined_prompt topic). rewrite Hc. simpl.
  rewrite markers_strip, Hq, Ha. simpl.
  unfold Str.split. rewrite E. simpl.
  by rewrite <- app_assoc.
Qed.

(** C4 (amended). When the trimmed text of the model contains both
    markers, [generate_question_with_answer] stores as
    [current_question] the text before the first ANSWER: with every
    QUESTION: removed, trimmed; it stores as [correct_answer] the text
    between the first ANSWER: and the next one (the rest of the text when
    there is no other), trimmed; and it returns the stored question. *)
Theorem generate_question_with_answer_parsed (topic : string) (st : state)
    (text pre post mid : string) :
  chat (calls st) (combined_prompt topic) = inr text ->
  Str.contains "QUESTION:" text = true ->
  first_cut "ANSWER:" (Str.strip text) pre post ->
  up_to_next "ANSWER:" post mid ->
  let r := generate_question_with_answer chat topic st in
  current_question (self (snd r)) = Str.strip (Str.replace "QUESTION:" "" pre) /\
  correct_answer (self (snd r)) = Str.strip mid /\
  fst r = inr (current_question (self (snd r))).
Proof.
  intros Hc Hq Hcut Hmid r. subst r.
  by rewrite (generate_question_with_answer_parse _ _ _ _ _ _ Hc Hq Hcut Hmid).
Qed.

(** C8 (amended). After [generate_question_with_answer] the stored
    question is empty in one case only: the text of the model has both
    markers and what stands before its first ANSWER:, once the QUESTION:
    markers are removed, is whitespace or nothing.  On every other path
    (a marker missing, the call failed, a parsed question with a visible
    character) [current_question] is a non-empty string. *)
Theorem generate_question_with_answer_question_empty (topic : string)
    (st : state) :
  current_question (self (snd (generate_question_with_answer chat topic st)))
    = EmptyString
  <-> exists text pre post,
        chat (calls st) (combined_prompt topic) = inr text /\
        Str.contains "QUESTION:" text = true /\
        first_cut "ANSWER:" (Str.strip text) pre post /\
        Str.all_space (Str.replace "QUESTION:" "" pre) = true.
Proof.
  split.
  - destruct (chat (calls st) (combined_prompt topic)) as [e|text] eqn:Hc.
    { unfold generate_question_with_answer. run.
      fold (combined_prompt topic). rewrite Hc. simpl. discriminate. }
    destruct (Str.contains "QUESTION:" text) eqn:Hq; cycle 1.
    { unfold generate_question_with_answer. run.
      fold (combined_prompt topic). rewrite Hc. simpl.
      rewrite markers_strip, Hq. simpl. discriminate. }
    destruct (Str.contains "ANSWER:" text) eqn:Ha; cycle 1.
    { unfold generate_question_with_answer. run.
      fold (combined_prompt topic). rewrite Hc. simpl.
      rewrite markers_strip, Hq, Ha. simpl. discriminate. }
    rewrite <- (contains_strip "ANSWER:" text) in Ha by done.
    destruct (contains_first_cut _ _ Ha) as (pre & post & Hcut).
    destruct (up_to_next_exists "ANSWER:" post) as [mid Hmid].
    rewrite (generate_question_with_answer_parse _ _ _ _ _ _ Hc Hq Hcut Hmid).
    simpl. intros E%strip_empty. by exists text, pre, post.
  - intros (text & pre & post & Hc & Hq & Hcut & Hsp).
    destruct (up_to_next_exists "ANSWER:" post) as [mid Hmid].
    rewrite (generate_question_with_answer_parse _ _ _ _ _ _ Hc Hq Hcut Hmid).
    simpl. by apply strip_empty.
Qed.

(** The attribute assignments of [generate_question_with_answer]: both
    attributes, on every path. *)
Lemma generate_question_with_answer_stores (topic : string) (st : state) :
  stores (snd (generate_question_with_answer chat topic st))
  = stores st ++ [CurrentQuestion; CorrectAnswer].
Proof.
  destruct (chat (calls st) (combined_prompt topic)) as [e|text] eqn:Hc.
  { unfold generate_question_with_answer. run.
    fold (combined_prompt topic). rewrite Hc. simpl. by rewrite <- app_assoc. }
  destruct (Str.contains "QUESTION:" text) eqn:Hq; cycle 1.
  { unfold generate_question_with_answer. run.
    fold (combined_prompt topic). rewrite Hc. simpl.
    rewrite markers_strip, Hq. simpl. by rewrite <- app_assoc. }
  destruct (Str.contains "ANSWER:" text) eqn:Ha; cycle 1.
  { unfold generate_question_with_answer. run.
    fold (combined_prompt topic). rewrite Hc. simpl.
    rewrite markers_strip, Hq, Ha. simpl. by rewrite <- app_assoc. }
  rewrite <- (contains_strip "ANSWER:" text) in Ha by done.
  destruct (contains_first_cut _ _ Ha) as (pre & post & Hcut).
  destruct (up_to_next_exists "ANSWER:" post) as [mid Hmid].
  by rewrite (generate_question_with_answer_parse _ _ _ _ _ _ Hc Hq Hcut Hmid).
Qed.

(** The attribute assignments of [generate_answer]: [correct_answer]
    when a question is stored, none otherwise. *)
Lemma generate_answer_stores (st : state) :
  stores (snd (generate_answer chat st))
  = stores st ++ (if Str.truthy (current_question (self st))
                  then [CorrectAnswer] else []).
Proof.
  unfold generate_answer. run.
  destruct (Str.truthy (current_question (self st))); simpl;
    [|by rewrite app_nil_r].
  destruct (chat _ _) as [[]|text]; simpl; try done.
  by destruct (Str.startswith _ _).
Qed.

(** The grading assigns no attribute. *)
Lemma grade_answer_frame (index : index_object) (prompt : string) (st : state) :
  self (snd (grade_answer chat encoder pinecone index prompt st)) = self st /\
  stores (snd (grade_answer chat encoder pinecone index prompt st)) = stores st.
Proof.
  unfold grade_answer. run.
  destruct (chat _ _) as [e|reply]; simpl; [done|].
  destruct (negb _ && _); simpl; [|done].
  match goal with
  | |- context [get_relevant_resource _ _ _ ?q ?s] =>
      destruct (get_relevant_resource_returns index q s) as ([r Hr] & Hs & Hw);
      destruct (get_relevant_resource encoder pinecone index q s) as [x st1]
  end.
  simpl in *. subst x. by destruct r.
Qed.

(** C3 (amended). [generate_question_with_answer] assigns
    [current_question] and [correct_answer] together in every call.
    [generate_answer] assigns [correct_answer] alone, for the question
    already stored, and [evaluate_answer] does so exactly when a question
    is stored without an answer; neither touches [current_question].
    [handle_general_question] assigns nothing. *)
Theorem question_answer_writes (index : index_object)
    (topic user_answer question : string) (st : state) :
  stores (snd (generate_question_with_answer chat topic st))
    = stores st ++ [CurrentQuestion; CorrectAnswer] /\
  (let st' := snd (generate_answer chat st) in
   current_question (self st') = current_question (self st) /\
   stores st'
     = stores st ++ (if Str.truthy (current_question (self st))
                     then [CorrectAnswer] else [])) /\
  (let st' := snd (evaluate_answer chat encoder pinecone index user_answer st) in
   current_question (self st') = current_question (self st) /\
   stores st'
     = stores st ++ (if Str.truthy (current_question (self st))
                        && negb (Str.truthy (correct_answer (self st)))
                     then [CorrectAnswer] else [])) /\
  (let st' := snd (handle_general_question chat question st) in
   self st' = self st /\ stores st' = stores st).
Proof.
  split; [apply generate_question_with_answer_stores|].
  split; [split; [apply generate_answer_question|apply generate_answer_stores]|].
  split.
  - destruct (current_question (self st)) as [|c q] eqn:Eq.
    + unfold evaluate_answer. run. rewrite Eq. simpl.
      by rewrite app_nil_r.
    + rewrite evaluate_answer_graded by (by rewrite Eq). cbv zeta.
      destruct (grade_answer_frame index
        (grading_prompt (before_grading chat st) user_answer)
        (before_grading chat st)) as [-> ->].
      unfold before_grading.
      destruct (Str.truthy (correct_answer (self st))); simpl.
      * by rewrite app_nil_r.
      * rewrite generate_answer_question, generate_answer_stores.
        by rewrite Eq.
  - unfold handle_general_question. run. by destruct (chat _ _).
Qed.

End SessionFacts.

(** ** The properties at concrete inputs *)

Lemma evaluate_answer_without_question_witness :
  current_question (self fresh_state) = EmptyString /\
  evaluate_answer (reply_with "CORRECT") sample_encoder sample_pinecone
    PineconeIndex "42" fresh_state
  = (inr {[ "is_correct" := VBool false;
            "message" := VStr "No question available." ]}, fresh_state).
Proof.
  split; [reflexivity|].
  apply (evaluate_answer_without_question (reply_with "CORRECT")
           sample_encoder sample_pinecone PineconeIndex "42" fresh_state).
  reflexivity.
Defined.

(** Find the first occurrence of the separator in a given text by
    walking over it. *)
Ltac first_cut_scan :=
  match goal with
  | |- first_cut ?sep ?s ?pre ?post =>
      let s' := eval vm_compute in s in
      let pre' := eval vm_compute in pre in
      let post' := eval vm_compute in post in
      change (first_cut sep s' pre' post')
  end;
  repeat (apply first_cut_cons; [reflexivity|]);
  match goal with
  | |- first_cut ?sep _ _ ?post => exact (first_cut_nil sep post)
  end.

Lemma evaluate_answer_decision_rule_witness :
  exists result st',
    evaluate_answer (reply_with "correct! well done") sample_encoder
      sample_pinecone PineconeIndex "the yearly rate" sample_state
    = (inr result, st') /\
    result !! "is_correct" = Some (VBool true).
Proof.
  destruct (evaluate_answer_decision_rule (reply_with "correct! well done")
              sample_encoder sample_pinecone PineconeIndex "the yearly rate"
              sample_state "correct! well done") as [H _].
  - discriminate.
  - reflexivity.
  - exact H.
Defined.

Lemma generate_question_with_answer_parsed_witness :
  let r := generate_question_with_answer (reply_with scenario_text)
             "budgeting" fresh_state in
  current_question (self (snd r)) = "How much should you save?" /\
  correct_answer (self (snd r)) = "At least 20% of income." /\
  fst r = inr (current_question (self (snd r))).
Proof.
  apply (generate_question_with_answer_parsed (reply_with scenario_text)
           "budgeting" fresh_state scenario_text
           ("QUESTION: How much should you save?" +:+ nl)
           " At least 20% of income." " At least 20% of income.").
  - reflexivity.
  - reflexivity.
  - first_cut_scan.
  - left. split; [by apply absent_contains|reflexivity].
Defined.

Lemma evaluate_answer_lookup_with_rebound_index_witness :
  let r := evaluate_answer (reply_with "INCORRECT. APR is a yearly rate.")
             sample_encoder sample_pinecone
             (global_index (Some "pc-key") (inr tt)) "a monthly fee"
             sample_state in
  calls (snd r)
  = [SendMessage (grading_prompt sample_state "a monthly fee");
     Encode "Annual percentage rate"]
  /\ (forall result, fst r = inr result -> result !! "resource" = None).
Proof.
  apply (evaluate_answer_lookup_with_rebound_index
           (reply_with "INCORRECT. APR is a yearly rate.")
           sample_encoder sample_pinecone (Some "pc-key") (inr tt)
           "a monthly fee" sample_state "INCORRECT. APR is a yearly rate.").
  - discriminate.
  - reflexivity.
Defined.

Lemma evaluate_answer_never_raises_witness :
  evaluate_answer chat_down sample_encoder sample_pinecone PineconeIndex
    "a monthly fee" sample_state
  = (inr {[ "is_correct" := VBool false;
            "message" := VStr "Error evaluating answer: quota exceeded";
            "correct_answer" := VStr "Annual percentage rate" ]},
     after_call sample_state (grading_prompt sample_state "a monthly fee")
       (self sample_state) []).
Proof.
  apply (proj2 (evaluate_answer_never_raises chat_down sample_encoder
                  sample_pinecone PineconeIndex "a monthly fee" sample_state)
           (OtherException "quota exceeded")).
  - discriminate.
  - reflexivity.
Defined.

Lemma generate_question_with_answer_fallback_witness :
  generate_question_with_answer (reply_with "I would rather talk about taxes.")
    "loans" fresh_state
  = (inr canned_question_malformed,
     after_call fresh_state (combined_prompt "loans")
       {| current_question := canned_question_malformed;
          correct_answer := canned_answer_malformed |}
       [CurrentQuestion; CorrectAnswer])
  /\
  generate_question_with_answer chat_down "loans" fresh_state
  = (inr canned_question_failed,
     after_call fresh_state (combined_prompt "loans")
       {| current_question := canned_question_failed;
          correct_answer := canned_answer_failed |}
       [CurrentQuestion; CorrectAnswer]).
Proof.
  split.
  - apply (proj1 (generate_question_with_answer_fallback
                    (reply_with "I would rather talk about taxes.")
                    "loans" fresh_state)
             "I would rather talk about taxes.").
    + reflexivity.
    + left. reflexivity.
  - apply (proj2 (generate_question_with_answer_fallback chat_down
                    "loans" fresh_state)
             (OtherException "quota exceeded")).
    reflexivity.
Defined.

Lemma empty_question_is_no_question_witness :
  current_question (self emptied_state) = EmptyString /\
  current_question init = EmptyString /\
  generate_answer (reply_with "CORRECT") emptied_state
    = (inr "No question available.", emptied_state) /\
  evaluate_answer (reply_with "CORRECT") sample_encoder sample_pinecone
    PineconeIndex "42" emptied_state
    = (inr no_question_result, emptied_state).
Proof.
  split; [reflexivity|].
  apply (empty_question_is_no_question (reply_with "CORRECT") sample_encoder
           sample_pinecone PineconeIndex "42" emptied_state).
  reflexivity.
Defined.

(** C3, as stated, fails: [generate_question] assigns [current_question]
    and leaves the reference answer of the earlier question in place, and
    [generate_answer] assigns [correct_answer] alone. *)
Lemma written_together_counterexample :
  let st1 := snd (generate_question (reply_with "What is a credit score?")
                    "credit" sample_state) in
  let st2 := snd (generate_answer (reply_with "A yearly rate")
                    {| self := {| current_question := "What is APR?";
                                  correct_answer := "" |};
                       calls := []; stores := [] |}) in
  stores st1 = [CurrentQuestion] /\
  self st1 = {| current_question := "What is a credit score?";
                correct_answer := "Annual percentage rate" |} /\
  stores st2 = [CorrectAnswer].
Proof. vm_compute. repeat split; reflexivity. Qed.

(** C4, as stated, fails: words before QUESTION: stay in the stored
    question, and the stored answer ends at a second ANSWER:. *)
Lemma parsed_pair_counterexample :
  let st' := snd (generate_question_with_answer (reply_with chatty_text)
                    "loans" fresh_state) in
  chatty_text = "Sure! " +:+ "QUESTION:" +:+ " What is APR? "
                +:+ "ANSWER:" +:+ " A yearly rate. ANSWER: 12%" /\
  current_question (self st') = "Sure!  What is APR?" /\
  current_question (self st') <> Str.strip " What is APR? " /\
  correct_answer (self st') = "A yearly rate." /\
  correct_answer (self st') <> Str.strip " A yearly rate. ANSWER: 12%".
Proof. vm_compute. repeat split; discriminate. Qed.

(** C8, as stated, fails: a reply with both markers and nothing between
    them leaves the session with an empty question, which
    [evaluate_answer] then treats as no question. *)
Lemma question_nonempty_counterexample :
  Str.contains "QUESTION:" empty_question_text = true /\
  Str.contains "ANSWER:" empty_question_text = true /\
  current_question (self emptied_state) = EmptyString /\
  correct_answer (self emptied_state) = "42".
Proof. vm_compute. repeat split; reflexivity. Qed.

(** Were the name [index] still bound to the Pinecone handle of line 39,
    the same grading would query the index and attach the resource. *)
Example lookup_with_pinecone_handle :
  let r := evaluate_answer (reply_with "INCORRECT. APR is a yearly rate.")
             sample_encoder sample_pinecone PineconeIndex "a monthly fee"
             sample_state in
  calls (snd r)
  = [SendMessage (grading_prompt sample_state "a monthly fee");
     Encode "Annual percentage rate";
     Query "auto_loan_resources" [3; 1; 4] 1 true]
  /\ fst r
     = inr {[ "is_correct" := VBool false;
              "message" := VStr "INCORRECT. APR is a yearly rate.";
              "correct_answer" := VStr "Annual percentage rate";
              "resource" := VDict {[ "title" := "Loans 101"; "link" := "#";
                                     "description" := "" ]} ]}.
Proof. split; vm_compute; reflexivity. Qed.

(** Without a Pinecone key the encoder is still called, because the name
    [index] is the view function and not [None]. *)
Example lookup_without_pinecone_key :
  configure_index None (inr tt) = NoneObject /\
  calls (snd (evaluate_answer (reply_with "INCORRECT")
                sample_encoder sample_pinecone
                (global_index None (inr tt)) "a monthly fee" sample_state))
  = [SendMessage (grading_prompt sample_state "a monthly fee");
     Encode "Annual percentage rate"].
Proof. split; vm_compute; reflexivity. Qed.

(** ** More facts about the [str] methods *)

Section StrMore.

Import Str.

Lemma app_assoc_string (a b c : string) :
  (a +:+ b) +:+ c = a +:+ b +:+ c.
Proof. induction a as [|x a IH]; [reflexivity|]. by rewrite !app_cons, IH. Qed.

Lemma length_app_string (a b : string) :
  String.length (a +:+ b) = String.length a + String.length b.
Proof. induction a as [|x a IH]; [reflexivity|]. rewrite app_cons. simpl. lia. Qed.

Lemma replace_go_skip (old new x r : string) :
  replace_go old new (String.length x) (x +:+ r) = replace_go old new 0 r.
Proof. induction x as [|c x IH]; [reflexivity|]. by rewrite app_cons. Qed.

(** [replace] at an occurrence: the new text, then the scan goes on
    after the occurrence. *)
Lemma replace_go_match (old new r : string) :
  old <> EmptyString ->
  replace_go old new 0 (old +:+ r) = new +:+ replace_go old new 0 r.
Proof.
  destruct old as [|a old]; [done|]. intros _.
  rewrite app_cons.
  change (replace_go (String a old) new 0 (String a (old +:+ r)))
    with (if startswith (String a old) (String a (old +:+ r))
          then new +:+ replace_go (String a old) new
                         (String.length (String a old) - 1) (old +:+ r)
          else String a (replace_go (String a old) new 0 (old +:+ r))).
  rewrite <- app_cons, startswith_app.
  replace (String.length (String a old) - 1) with (String.length old)
    by (simpl; lia).
  by rewrite replace_go_skip.
Qed.

(** [replace] leaves a text without the pattern as it is. *)
Lemma replace_go_absent (old new s : string) :
  contains old s = false -> replace_go old new 0 s = s.
Proof.
  induction s as [|c r IH]; [reflexivity|].
  intros H. simpl in H. apply orb_false_iff in H as [Hs Hc].
  change (replace_go old new 0 (String c r))
    with (if startswith old (String c r)
          then new +:+ replace_go old new (String.length old - 1) r
          else String c (replace_go old new 0 r)).
  simpl. rewrite Hs. by rewrite IH.
Qed.

(** Removing a label that stands once, at the head of a text. *)
Lemma replace_label (label rest : string) :
  label <> EmptyString ->
  contains label rest = false ->
  replace label "" (label +:+ rest) = rest.
Proof.
  intros Hl Hr. unfold replace. destruct label as [|a l] eqn:E; [done|].
  by rewrite replace_go_match, replace_go_absent.
Qed.

Lemma startswith_app_short (p s w : string) :
  String.length p <= String.length s ->
  startswith p (s +:+ w) = startswith p s.
Proof.
  revert s. induction p as [|a p IH]; intros s Hl; [reflexivity|].
  destruct s as [|c s]; [simpl in Hl; lia|].
  rewrite app_cons. simpl. destruct (Ascii.eqb a c); [|reflexivity].
  apply IH. simpl in Hl. lia.
Qed.

(** An occurrence of an unbordered separator cannot begin in a text
    without it and end in a separator that follows. *)
Lemma no_straddle (sep post : string) :
  unbordered sep ->
  forall u x p,
    sep = x +:+ p -> p <> EmptyString ->
    x <> EmptyString \/ u <> EmptyString ->
    startswith p u = false ->
    startswith p (u +:+ sep +:+ post) = false.
Proof.
  intros Hu u. induction u as [|c r IH]; intros x p Hsep Hp Hx Hs.
  - destruct Hx as [Hx|]; [|done]. rewrite app_empty_l.
    rewrite startswith_app_short.
    + by eapply Hu.
    + rewrite Hsep, length_app_string. lia.
  - destruct p as [|a p]; [done|]. rewrite app_cons.
    simpl in *. destruct (Ascii.eqb a c); [|reflexivity].
    apply (IH (x +:+ String a EmptyString)).
    + by rewrite app_assoc_string.
    + by intros ->.
    + left. by destruct x.
    + done.
Qed.

(** With an unbordered separator, a text without it is what stands
    before the first occurrence once the separator is appended. *)
Lemma first_cut_intro (sep pre post : string) :
  unbordered sep -> sep <> EmptyString ->
  contains sep pre = false ->
  first_cut sep (pre +:+ sep +:+ post) pre post.
Proof.
  intros Hu Hsep. induction pre as [|c pre IH]; intros Hc.
  - exact (first_cut_nil sep post).
  - simpl in Hc. apply orb_false_iff in Hc as [Hs Hc].
    rewrite app_cons. apply first_cut_cons; [|by apply IH].
    rewrite <- app_cons.
    apply (no_straddle sep post Hu (String c pre) EmptyString sep);
      [reflexivity|exact Hsep|by right|].
    simpl. exact Hs.
Qed.

Lemma answer_marker_unbordered : unbordered "ANSWER:".
Proof.
  intros x p E Hx Hp.
  do 8 (destruct x as [|? x];
        [rewrite app_empty_l in E; subst p; first [done|reflexivity]
        |rewrite app_cons in E; first [discriminate E|injection E as _ E]]).
Qed.

End StrMore.

(** ** More facts about the session operations *)

Section SessionMore.

Context {vector : Type}.
Variable chat : list (@call vector) -> string -> exn + string.
Variable encoder : list (@call vector) -> string -> exn + vector.
Variable pinecone :
  list (@call vector) -> string -> vector -> exn + list (gmap string string).

Local Arguments Str.startswith : simpl never.
Local Arguments Str.contains : simpl never.
Local Arguments Str.strip : simpl never.
Local Arguments Str.replace : simpl never.
Local Arguments Str.split : simpl never.
Local Arguments Str.upper : simpl never.
Local Arguments Str.truthy : simpl never.

Ltac run :=
  unfold bind, try_except, ret, raise, lift, send_message, encode,
    get_current_question, get_correct_answer, set_current_question,
    set_correct_answer, log_call; simpl.

(** X1. [generate_question] (lines 54-69) never raises: it makes one chat
    call, returns the very question it stores and leaves the reference
    answer as it was; a content-filter failure gives the emergency-fund
    question, any other failure the credit-card question. *)
Theorem generate_question_returns_stored (topic : string) (st : state) :
  exists question,
    generate_question chat topic st
    = (inr question,
       after_call st (question_prompt topic)
         {| current_question := question;
            correct_answer := correct_answer (self st) |}
         [CurrentQuestion]) /\
    (forall e, chat (calls st) (question_prompt topic) = inl e ->
       question
       = match e with
         | StopCandidateException _ =>
             "What is the recommended amount for an emergency fund?"
         | _ => "What factors should you consider when choosing a credit card?"
         end).
Proof.
  unfold generate_question, after_call. run. fold (question_prompt topic).
  destruct (chat (calls st) (question_prompt topic)) as [e|text]; simpl.
  - destruct e; simpl; eexists; (split; [reflexivity|]); by intros ? [= <-].
  - destruct (Str.startswith _ _); simpl; eexists; (split; [reflexivity|]);
      intros ? [=].
Qed.

(** X2. A reply that begins with the label [Question:] and has it nowhere
    else is stored without the label, trimmed (lines 60-62). *)
Theorem generate_question_drops_label (topic : string) (st : state)
    (text rest : string) :
  chat (calls st) (question_prompt topic) = inr text ->
  Str.strip text = "Question:" +:+ rest ->
  Str.contains "Question:" rest = false ->
  let r := generate_question chat topic st in
  fst r = inr (Str.strip rest) /\
  current_question (self (snd r)) = Str.strip rest.
Proof.
  intros Hc Ht Hr. unfold generate_question. run.
  fold (question_prompt topic). rewrite Hc. simpl. rewrite Ht.
  rewrite startswith_app, replace_label by done. simpl. done.
Qed.

(** X3. With a question stored, [generate_answer] (lines 71-90) never
    raises: it makes one chat call about that question, returns the very
    answer it stores and leaves the question as it was; after a failed
    call the stored answer is one of two fixed sentences. *)
Theorem generate_answer_returns_stored (st : state) :
  current_question (self st) <> EmptyString ->
  exists answer,
    generate_answer chat st
    = (inr answer,
       after_call st (answer_prompt (current_question (self st)))
         {| current_question := current_question (self st);
            correct_answer := answer |}
         [CorrectAnswer]) /\
    (forall e,
       chat (calls st) (answer_prompt (current_question (self st))) = inl e ->
       answer
       = match e with
         | StopCandidateException _ =>
             "Please refer to financial literacy resources for the correct answer."
         | _ => "Unable to generate answer at this time."
         end).
Proof.
  intros Hq.
  assert (Ht : Str.truthy (current_question (self st)) = true)
    by (by destruct (current_question (self st))).
  unfold generate_answer, after_call. run.
  fold (answer_prompt (current_question (self st))). rewrite Ht. simpl.
  destruct (chat (calls st) (answer_prompt _)) as [e|text]; simpl.
  - destruct e; simpl; eexists; (split; [reflexivity|]); by intros ? [= <-].
  - destruct (Str.startswith _ _); simpl; eexists; (split; [reflexivity|]);
      intros ? [=].
Qed.

(** X4. A reply that begins with the label [Answer:] and has it nowhere
    else is stored without the label, trimmed (lines 81-82). *)
Theorem generate_answer_drops_label (st : state) (text rest : string) :
  current_question (self st) <> EmptyString ->
  chat (calls st) (answer_prompt (current_question (self st))) = inr text ->
  Str.strip text = "Answer:" +:+ rest ->
  Str.contains "Answer:" rest = false ->
  let r := generate_answer chat st in
  fst r = inr (Str.strip rest) /\
  correct_answer (self (snd r)) = Str.strip rest.
Proof.
  intros Hq Hc Ht Hr.
  assert (Hy : Str.truthy (current_question (self st)) = true)
    by (by destruct (current_question (self st))).
  unfold generate_answer. run.
  fold (answer_prompt (current_question (self st))). rewrite Hy. simpl.
  rewrite Hc. simpl. rewrite Ht.
  rewrite startswith_app, replace_label by done. simpl. done.
Qed.

Lemma chat_calls_app (a b : list (@call vector)) :
  chat_calls (a ++ b) = chat_calls a + chat_calls b.
Proof. unfold chat_calls. by rewrite List.filter_app, length_app. Qed.

Lemma chat_calls_cons (prompt : string) (rest : list (@call vector)) :
  chat_calls (SendMessage prompt :: rest) = S (chat_calls rest).
Proof. reflexivity. Qed.

Lemma generate_answer_shape (st : state) :
  current_question (self st) <> EmptyString ->
  exists answer,
    generate_answer chat st
    = (inr answer,
       after_call st (answer_prompt (current_question (self st)))
         {| current_question := current_question (self st);
            correct_answer := answer |}
         [CorrectAnswer]).
Proof.
  intros Hq.
  assert (Ht : Str.truthy (current_question (self st)) = true)
    by (by destruct (current_question (self st))).
  unfold generate_answer, after_call. run.
  fold (answer_prompt (current_question (self st))). rewrite Ht. simpl.
  destruct (chat (calls st) (answer_prompt _)) as [[]|text]; simpl; eauto.
  destruct (Str.startswith _ _); simpl; eauto.
Qed.

Lemma generate_question_answer_kept (topic : string) (st : state) :
  correct_answer (self (snd (generate_question chat topic st)))
  = correct_answer (self st).
Proof.
  unfold generate_question. run.
  destruct (chat _ _) as [[]|text]; simpl; try done.
  by destruct (Str.startswith _ _).
Qed.

(** The calls of the grading: the chat call, then calls that are no
    chat calls. *)
Lemma grade_answer_shape (index : index_object) (prompt : string) (st : state) :
  exists rest,
    calls (snd (grade_answer chat encoder pinecone index prompt st))
    = calls st ++ SendMessage prompt :: rest /\
    chat_calls rest = 0.
Proof.
  unfold grade_answer. run.
  destruct (chat _ _) as [e|reply]; simpl; [by exists []|].
  destruct (negb _ && _); simpl; [|by exists []].
  unfold get_relevant_resource, index_query. run.
  destruct index; simpl; [by exists []| |].
  - destruct (encoder _ _); simpl.
    + eexists [_]. by rewrite <- app_assoc.
    + destruct (pinecone _ _ _) as [|[|m ms]]; simpl;
        eexists [_; _]; by rewrite <- !app_assoc.
  - destruct (encoder _ _); simpl; eexists [_]; by rewrite <- app_assoc.
Qed.

(** X5. [evaluate_answer] makes no chat call without a question, one with
    a question and a stored answer, and two (the answer, then the
    grading) with a question and no answer (lines 93-108). *)
Theorem evaluate_answer_chat_budget (index : index_object)
    (user_answer : string) (st : state) :
  chat_calls (calls (snd (evaluate_answer chat encoder pinecone index user_answer st)))
  = chat_calls (calls st)
    + (if negb (Str.truthy (current_question (self st))) then 0
       else if Str.truthy (correct_answer (self st)) then 1 else 2).
Proof.
  destruct (current_question (self st)) as [|c q] eqn:Eq.
  - unfold evaluate_answer. run. rewrite Eq. simpl. lia.
  - change (negb (Str.truthy (String c q))) with false. cbv iota.
    rewrite evaluate_answer_graded by (by rewrite Eq).
    destruct (grade_answer_shape index
                (grading_prompt (before_grading chat st) user_answer)
                (before_grading chat st)) as (rest & -> & Hrest).
    rewrite chat_calls_app, chat_calls_cons, Hrest.
    unfold before_grading.
    destruct (Str.truthy (correct_answer (self st))); simpl.
    + lia.
    + destruct (generate_answer_shape st) as [a ->]; [by rewrite Eq|].
      simpl. rewrite chat_calls_app, chat_calls_cons.
      change (chat_calls []) with 0. lia.
Qed.

(** X6. With a question and no answer stored, [evaluate_answer] first asks
    for the answer and then sends a grading prompt built with the answer
    it just stored; nothing else is asked of the chat (lines 96-108). *)
Theorem evaluate_answer_lazy_answer (index : index_object)
    (user_answer : string) (st : state) :
  current_question (self st) <> EmptyString ->
  correct_answer (self st) = EmptyString ->
  exists answer rest,
    fst (generate_answer chat st) = inr answer /\
    let st' := snd (evaluate_answer chat encoder pinecone index user_answer st) in
    correct_answer (self st') = answer /\
    current_question (self st') = current_question (self st) /\
    calls st'
    = calls st
      ++ [SendMessage (answer_prompt (current_question (self st)));
          SendMessage (safety_instruction +:+ " "
                       +:+ evaluation_instruction (current_question (self st))
                             user_answer answer)]
      ++ rest /\
    chat_calls rest = 0.
Proof.
  intros Hq Ha. rewrite evaluate_answer_graded by done.
  destruct (generate_answer_shape st Hq) as [answer Hg].
  assert (Hb : before_grading chat st
               = after_call st (answer_prompt (current_question (self st)))
                   {| current_question := current_question (self st);
                      correct_answer := answer |} [CorrectAnswer]).
  { unfold before_grading. rewrite Ha, Hg. reflexivity. }
  destruct (grade_answer_shape index
              (grading_prompt (before_grading chat st) user_answer)
              (before_grading chat st)) as (rest & Hcalls & Hrest).
  destruct (grade_answer_frame chat encoder pinecone index
              (grading_prompt (before_grading chat st) user_answer)
              (before_grading chat st)) as [Hself _].
  exists answer, rest. split; [by rewrite Hg|]. cbv zeta.
  rewrite Hself, Hcalls, Hb. simpl.
  repeat split; try done. by rewrite <- app_assoc.
Qed.

(** X7. For every binding of the name [index]: when the reply is judged
    correct, or [index] is [None], a successful grading makes the chat
    call and no other call (lines 119 and 135). *)
Theorem evaluate_answer_no_lookup (index : index_object)
    (user_answer : string) (st : state) (reply : string) :
  current_question (self st) <> EmptyString ->
  chat (calls (before_grading chat st))
       (grading_prompt (before_grading chat st) user_answer) = inr reply ->
  spec_decision_rule reply = true \/ index = NoneObject ->
  calls (snd (evaluate_answer chat encoder pinecone index user_answer st))
  = calls (before_grading chat st)
    ++ [SendMessage (grading_prompt (before_grading chat st) user_answer)].
Proof.
  intros Hq Hc Hor. rewrite evaluate_answer_graded by done.
  rewrite (grade_answer_calls chat encoder pinecone index _ _ _ Hc).
  destruct Hor as [-> | ->]; [done|]. by rewrite andb_false_r.
Qed.

(** X9. [get_relevant_resource] (lines 134-157) never raises, whatever the
    encoder and the index do and whatever [index] is bound to; it leaves
    the object alone and makes no chat call; with [index] bound to [None]
    it returns [None] without any call. *)
Theorem get_relevant_resource_swallows (index : index_object)
    (query_text : string) (st : state) :
  let r := get_relevant_resource encoder pinecone index query_text st in
  (exists resource, fst r = inr resource) /\
  self (snd r) = self st /\
  stores (snd r) = stores st /\
  chat_calls (calls (snd r)) = chat_calls (calls st) /\
  (index = NoneObject -> r = (inr None, st)).
Proof.
  cbv zeta.
  destruct (get_relevant_resource_returns encoder pinecone index query_text st)
    as (Hr & Hs & Hw).
  repeat split; try done.
  - unfold get_relevant_resource, index_query. run.
    destruct index; simpl; [done| |].
    + destruct (encoder _ _); simpl.
      * by rewrite chat_calls_app, Nat.add_0_r.
      * destruct (pinecone _ _ _) as [|[|m ms]]; simpl;
          by rewrite !chat_calls_app, !Nat.add_0_r.
    + destruct (encoder _ _); simpl; by rewrite chat_calls_app, Nat.add_0_r.
  - by intros ->.
Qed.

(** X10. With [index] bound to the Pinecone handle and an encoder that
    answers, [get_relevant_resource] queries the namespace
    [auto_loan_resources] once for one neighbour and builds the resource
    from the first match alone: its title, link and description, or
    [Financial Resource], [#] and the empty text where the metadata has
    none; without a match it returns [None] (lines 139-153). *)
Theorem get_relevant_resource_first_match (query_text : string) (st : state)
    (v : vector) (matches : list (gmap string string)) :
  encoder (calls st) query_text = inr v ->
  pinecone (calls st ++ [Encode query_text]) "auto_loan_resources" v
    = inr matches ->
  get_relevant_resource encoder pinecone PineconeIndex query_text st
  = (inr (resource_of <$> head matches),
     {| self := self st;
        calls := calls st ++ [Encode query_text;
                              Query "auto_loan_resources" v 1 true];
        stores := stores st |}).
Proof.
  intros He Hp. unfold get_relevant_resource, index_query. run.
  rewrite He. simpl. rewrite Hp. simpl.
  destruct matches as [|m ms]; simpl; rewrite <- app_assoc; reflexivity.
Qed.

(** X8. The resource attached by [evaluate_answer], for every binding of
    the name [index]: a successful grading returns the trimmed reply as
    [message] and the stored answer as [correct_answer], and it has a
    [resource] exactly when the reply is judged incorrect, [index] is the
    Pinecone handle, the encoder answers and the query has a match; the
    resource is the one of the first match (lines 113-122). *)
Theorem evaluate_answer_resource (index : index_object)
    (user_answer : string) (st : state) (reply : string) :
  current_question (self st) <> EmptyString ->
  chat (calls (before_grading chat st))
       (grading_prompt (before_grading chat st) user_answer) = inr reply ->
  let st1 := before_grading chat st in
  let log := calls st1 ++ [SendMessage (grading_prompt st1 user_answer)] in
  exists result st',
    evaluate_answer chat encoder pinecone index user_answer st = (inr result, st') /\
    result !! "message" = Some (VStr (Str.strip reply)) /\
    result !! "correct_answer" = Some (VStr (correct_answer (self st1))) /\
    result !! "resource"
    = (if spec_decision_rule reply then None
       else match index, encoder log (correct_answer (self st1)) with
            | PineconeIndex, inr v =>
                match pinecone (log ++ [Encode (correct_answer (self st1))])
                        "auto_loan_resources" v with
                | inr (m :: _) => Some (VDict (resource_of m))
                | _ => None
                end
            | _, _ => None
            end).
Proof.
  intros Hq Hc st1 log. subst st1 log.
  rewrite evaluate_answer_graded by done.
  set (st1 := before_grading chat st) in *.
  unfold grade_answer. run. rewrite Hc. simpl.
  rewrite judged_correct_strip.
  destruct (spec_decision_rule reply); simpl.
  { eexists _, _. split; [reflexivity|]. by simplify_map_eq. }
  unfold get_relevant_resource, index_query. run.
  destruct index; simpl.
  - eexists _, _. split; [reflexivity|]. by simplify_map_eq.
  - destruct (encoder _ _) as [e|v]; simpl.
    + eexists _, _. split; [reflexivity|]. by simplify_map_eq.
    + destruct (pinecone _ _ _) as [e|[|m ms]]; simpl;
        eexists _, _; (split; [reflexivity|]); by simplify_map_eq.
  - destruct (encoder _ _) as [e|v]; simpl;
      eexists _, _; (split; [reflexivity|]); by simplify_map_eq.
Qed.

(** The run of [generate_question_with_answer] on every path: one chat
    call, and the returned text is the stored question. *)
Lemma generate_question_with_answer_shape (topic : string) (st : state) :
  exists question answer,
    generate_question_with_answer chat topic st
    = (inr question,
       after_call st (combined_prompt topic)
         {| current_question := question; correct_answer := answer |}
         [CurrentQuestion; CorrectAnswer]).
Proof.
  destruct (chat (calls st) (combined_prompt topic)) as [e|text] eqn:Hc.
  { unfold generate_question_with_answer, after_call. run.
    fold (combined_prompt topic). rewrite Hc. simpl.
    rewrite <- app_assoc. eauto. }
  destruct (Str.contains "QUESTION:" text) eqn:Hq; cycle 1.
  { unfold generate_question_with_answer, after_call. run.
    fold (combined_prompt topic). rewrite Hc. simpl.
    rewrite markers_strip, Hq. simpl. rewrite <- app_assoc. eauto. }
  destruct (Str.contains "ANSWER:" text) eqn:Ha; cycle 1.
  { unfold generate_question_with_answer, after_call. run.
    fold (combined_prompt topic). rewrite Hc. simpl.
    rewrite markers_strip, Hq, Ha. simpl. rewrite <- app_assoc. eauto. }
  rewrite <- (contains_strip "ANSWER:" text) in Ha by done.
  destruct (contains_first_cut _ _ Ha) as (pre & post & Hcut).
  destruct (up_to_next_exists "ANSWER:" post) as [mid Hmid].
  rewrite (generate_question_with_answer_parse chat _ _ _ _ _ _ Hc Hq Hcut Hmid).
  eauto.
Qed.

(** X11. [generate_question_with_answer] (lines 168-201) never raises; on
    every path it makes exactly one call, a chat call, and returns the
    very text it stores as [current_question]. *)
Theorem generate_question_with_answer_returns_stored (topic : string)
    (st : state) :
  let r := generate_question_with_answer chat topic st in
  fst r = inr (current_question (self (snd r))) /\
  calls (snd r) = calls st ++ [SendMessage (combined_prompt topic)].
Proof.
  cbv zeta.
  destruct (generate_question_with_answer_shape topic st) as (q & a & ->).
  done.
Qed.

(** X12. A reply of the shape the prompt asks for: the trimmed text is
    QUESTION:, a question, ANSWER:, an answer, with no marker inside the
    question or the answer.  Then the trimmed question and the trimmed
    answer are stored, and the question is returned (lines 183-191). *)
Theorem generate_question_with_answer_well_formed (topic : string)
    (st : state) (text q a : string) :
  chat (calls st) (combined_prompt topic) = inr text ->
  Str.strip text = "QUESTION:" +:+ q +:+ "ANSWER:" +:+ a ->
  Str.contains "QUESTION:" q = false ->
  Str.contains "ANSWER:" q = false ->
  Str.contains "ANSWER:" a = false ->
  let r := generate_question_with_answer chat topic st in
  fst r = inr (Str.strip q) /\
  current_question (self (snd r)) = Str.strip q /\
  correct_answer (self (snd r)) = Str.strip a.
Proof.
  intros Hc Ht Hqq Haq Haa. cbv zeta.
  assert (Hq : Str.contains "QUESTION:" text = true).
  { rewrite <- (contains_strip "QUESTION:" text) by done.
    apply contains_spec. exists EmptyString, (q +:+ "ANSWER:" +:+ a).
    by rewrite Ht. }
  assert (Hcut : first_cut "ANSWER:" (Str.strip text) ("QUESTION:" +:+ q) a).
  { rewrite Ht, <- app_assoc_string.
    apply first_cut_intro; [apply answer_marker_unbordered|done|].
    exact Haq. }
  assert (Hmid : up_to_next "ANSWER:" a a).
  { left. split; [by apply absent_contains|reflexivity]. }
  rewrite (generate_question_with_answer_parse chat _ _ _ _ _ _ Hc Hq Hcut Hmid).
  simpl. by rewrite replace_label.
Qed.

(** X13. [generate_question] on a session that holds an answer, then
    [evaluate_answer]: no answer is generated for the new question; the
    one chat call is a grading prompt that sets the new question against
    the answer that was stored before, and that answer stays stored
    (lines 68, 96-102). *)
Theorem evaluate_after_generate_question (index : index_object)
    (topic user_answer : string) (st : state) :
  correct_answer (self st) <> EmptyString ->
  let st1 := snd (generate_question chat topic st) in
  let st2 := snd (evaluate_answer chat encoder pinecone index user_answer st1) in
  current_question (self st1) <> EmptyString ->
  correct_answer (self st2) = correct_answer (self st) /\
  exists rest,
    calls st2
    = calls st1
      ++ SendMessage (safety_instruction +:+ " "
                      +:+ evaluation_instruction (current_question (self st1))
                            user_answer (correct_answer (self st)))
         :: rest /\
    chat_calls rest = 0.
Proof.
  intros Ha st1 st2 Hq. subst st2.
  rewrite evaluate_answer_graded by done.
  assert (Hk : correct_answer (self st1) = correct_answer (self st))
    by apply generate_question_answer_kept.
  assert (Hb : before_grading chat st1 = st1).
  { unfold before_grading. rewrite Hk.
    by destruct (correct_answer (self st)). }
  rewrite Hb. unfold grading_prompt. rewrite Hk.
  split.
  - destruct (grade_answer_frame chat encoder pinecone index
      (safety_instruction +:+ " "
       +:+ evaluation_instruction (current_question (self st1)) user_answer
             (correct_answer (self st))) st1) as [-> _].
    exact Hk.
  - apply grade_answer_shape.
Qed.

(** [evaluate_answer] returns a dictionary in every case. *)
Lemma evaluate_answer_returns (index : index_object) (user_answer : string)
    (st : state) :
  exists result,
    fst (evaluate_answer chat encoder pinecone index user_answer st) = inr result.
Proof.
  destruct (current_question (self st)) as [|c q] eqn:Eq.
  - unfold evaluate_answer. run. rewrite Eq. simpl. eauto.
  - rewrite evaluate_answer_graded by (by rewrite Eq).
    set (st1 := before_grading chat st).
    set (prompt := grading_prompt st1 user_answer).
    destruct (chat (calls st1) prompt) as [e|reply] eqn:Hc.
    + rewrite (grade_answer_failure chat encoder pinecone index _ _ _ Hc).
      simpl. eauto.
    + destruct (grade_answer_success chat encoder pinecone index _ _ _ Hc)
        as (result & st' & E & _).
      rewrite E. simpl. eauto.
Qed.

Lemma handle_general_question_shape (question : string) (st : state) :
  exists text,
    handle_general_question chat question st
    = (inr text,
       after_call st (safety_instruction +:+ " " +:+ general_instruction question)
         (self st) []).
Proof.
  unfold handle_general_question, after_call. run. rewrite app_nil_r.
  destruct (chat _ _); simpl; eauto.
Qed.

End SessionMore.

(** ** Facts about the request handlers *)

Section HandlerFacts.

Context {vector number : Type}.
Variable number_truthy : number -> bool.
Variable number_class : number -> string.
Variable py_str : @json number -> string.
Variable chat : list (@call vector) -> string -> exn + string.
Variable encoder : list (@call vector) -> string -> exn + vector.
Variable pinecone :
  list (@call vector) -> string -> vector -> exn + list (gmap string string).
Variable index : index_object.

Local Arguments Str.strip : simpl never.
Local Arguments Str.truthy : simpl never.

Ltac run :=
  unfold bind, try_except, ret, raise, lift; simpl.

Abbreviation submit :=
  (api_submit_answer number_truthy number_class py_str chat encoder pinecone index).
Abbreviation generate :=
  (api_generate_question number_truthy number_class py_str chat).
Abbreviation ask :=
  (api_ask_question number_truthy number_class py_str chat).

Lemma truthy_strip (s : string) :
  Str.truthy (Str.strip s) = negb (Str.all_space s).
Proof.
  destruct (Str.all_space s) eqn:E.
  - apply strip_empty in E. by rewrite E.
  - destruct (Str.strip s) eqn:Es; [|reflexivity].
    apply strip_empty in Es. congruence.
Qed.

(** X14. [api_submit_answer] with a body that is a JSON object (or a falsy
    value, taken as the empty object) whose [answer] is missing or is a
    text of whitespace only: status 400 with the error
    [Answer cannot be empty]; the session is not touched and no
    collaborator is called (lines 230-234). *)
Theorem api_submit_answer_blank (req : @request number) (st : @state vector)
    (body : @json number) (m : gmap string (@json number)) :
  method req = POST ->
  get_json req = inr body ->
  or_empty_dict number_truthy body = JObj m ->
  m !! "answer" = None
  \/ (exists s, m !! "answer" = Some (JStr s) /\ Str.all_space s = true) ->
  submit req st = (inr (failure "Answer cannot be empty" 400), st).
Proof.
  intros Hm Hb Hd Ha. unfold api_submit_answer. rewrite Hm. run.
  rewrite Hb. simpl. rewrite Hd. simpl.
  destruct Ha as [-> | (s & -> & Hs)]; simpl.
  - reflexivity.
  - rewrite truthy_strip, Hs. reflexivity.
Qed.

(** X15. [api_submit_answer] with an [answer] that is a text with a visible
    character: the answer goes to [evaluate_answer] as it is (not
    trimmed) and the response has status 200 and [success] true with the
    evaluation, whatever the model does (lines 231-237). *)
Theorem api_submit_answer_evaluates (req : @request number) (st : @state vector)
    (body : @json number) (m : gmap string (@json number)) (s : string) :
  method req = POST ->
  get_json req = inr body ->
  or_empty_dict number_truthy body = JObj m ->
  m !! "answer" = Some (JStr s) ->
  Str.all_space s = false ->
  exists evaluation,
    fst (evaluate_answer chat encoder pinecone index s st) = inr evaluation /\
    submit req st
    = (inr (success "evaluation" (JObj (value_to_json <$> evaluation))),
       snd (evaluate_answer chat encoder pinecone index s st)).
Proof.
  intros Hm Hb Hd Ha Hs.
  destruct (evaluate_answer_returns chat encoder pinecone index s st)
    as [evaluation He].
  exists evaluation. split; [exact He|].
  unfold api_submit_answer. rewrite Hm. run.
  rewrite Hb. simpl. rewrite Hd. simpl. rewrite Ha. simpl.
  rewrite truthy_strip, Hs. simpl.
  destruct (evaluate_answer chat encoder pinecone index s st) as [r st'].
  simpl in He. subst r. reflexivity.
Qed.

(** X16. [api_submit_answer] answers with status 500, and leaves the session
    as it was, when the body cannot be read, when it is a truthy value
    that is no object, and when [answer] is no text (lines 230-233,
    238-240). *)
Theorem api_submit_answer_server_error (req : @request number) (st : @state vector) :
  method req = POST ->
  (forall e, get_json req = inl e ->
     submit req st = (inr (failure (str_of_exn e) 500), st)) /\
  (forall body,
     get_json req = inr body ->
     truthy_json number_truthy body = true ->
     (forall m, body <> JObj m) ->
     exists text, submit req st = (inr (failure text 500), st)) /\
  (forall body m v,
     get_json req = inr body ->
     or_empty_dict number_truthy body = JObj m ->
     m !! "answer" = Some v ->
     (forall s, v <> JStr s) ->
     exists text, submit req st = (inr (failure text 500), st)).
Proof.
  intros Hm. repeat split.
  - intros e He. unfold api_submit_answer. rewrite Hm. run. by rewrite He.
  - intros body Hb Ht Hn. unfold api_submit_answer. rewrite Hm. run.
    rewrite Hb. simpl. unfold or_empty_dict. rewrite Ht.
    destruct body; simpl; eauto. by destruct (Hn m).
  - intros body m v Hb Hd Ha Hn. unfold api_submit_answer. rewrite Hm. run.
    rewrite Hb. simpl. rewrite Hd. simpl. rewrite Ha. simpl.
    destruct v; simpl; eauto. by destruct (Hn s).
Qed.

(** X17. After a reset the session is the one [__init__] builds, so a
    submitted answer gets status 200 with the evaluation
    [No question available.], and no collaborator is called by either
    request (lines 236, 261-264, with lines 51 and 93-94). *)
Theorem api_reset_then_submit (reset req : @request number)
    (st : @state vector)
    (body : @json number) (m : gmap string (@json number)) (s : string) :
  method reset = POST ->
  method req = POST ->
  get_json req = inr body ->
  or_empty_dict number_truthy body = JObj m ->
  m !! "answer" = Some (JStr s) ->
  Str.all_space s = false ->
  let st1 := snd (api_reset_chat (vector := vector) reset st) in
  fst (api_reset_chat (vector := vector) reset st)
    = inr (success "message" (JStr "Chat reset successfully")) /\
  self st1 = init /\
  calls st1 = calls st /\
  submit req st1
  = (inr (success "evaluation" (JObj (value_to_json <$> no_question_result))),
     st1).
Proof.
  intros Hr Hm Hb Hd Ha Hs. unfold api_reset_chat. rewrite Hr. run.
  repeat split.
  unfold api_submit_answer. rewrite Hm. run.
  rewrite Hb. simpl. rewrite Hd. simpl. rewrite Ha. simpl.
  rewrite truthy_strip, Hs. simpl. reflexivity.
Qed.

(** X18. [api_generate_question] with a readable object body: status 200
    with the question that is now stored, after exactly one chat call
    about the [topic] of the body, [financial literacy] when the body has
    none; the model failing does not make it a server error
    (lines 216-219). *)
Theorem api_generate_question_ok (req : @request number) (st : @state vector)
    (body : @json number) (m : gmap string (@json number)) :
  method req = POST ->
  get_json req = inr body ->
  or_empty_dict number_truthy body = JObj m ->
  let topic := format_json py_str (default (JStr "financial literacy") (m !! "topic")) in
  exists question st',
    generate req st = (inr (success "question" (JStr question)), st') /\
    current_question (self st') = question /\
    calls st' = calls st ++ [SendMessage (combined_prompt topic)].
Proof.
  intros Hm Hb Hd topic. unfold api_generate_question. rewrite Hm. run.
  rewrite Hb. simpl. rewrite Hd. simpl. fold topic.
  destruct (generate_question_with_answer_shape chat topic st) as (q & a & ->).
  simpl. eauto.
Qed.

(** X19. [api_ask_question] never changes the stored question and answer,
    whatever the request and the model do; with a readable object body
    it answers with status 200, also when the model fails
    (lines 247-251). *)
Theorem api_ask_question_frame (req : @request number) (st : @state vector) :
  self (snd (ask req st)) = self st /\
  (forall body m,
     method req = POST ->
     get_json req = inr body ->
     or_empty_dict number_truthy body = JObj m ->
     exists text, fst (ask req st) = inr (success "response" (JStr text))).
Proof.
  split.
  - unfold api_ask_question. destruct (method req); run; [|done].
    destruct (get_json req) as [e|body]; simpl; [done|].
    destruct (dict_get _ _ _ _) as [e|q]; simpl; [done|].
    destruct (handle_general_question_shape chat (format_json py_str q) st)
      as [text ->]. done.
  - intros body m Hm Hb Hd. unfold api_ask_question. rewrite Hm. run.
    rewrite Hb. simpl. rewrite Hd. simpl.
    destruct (handle_general_question_shape chat
                (format_json py_str (default (JStr "") (m !! "question"))) st)
      as [text ->]. simpl. eauto.
Qed.

End HandlerFacts.

(** ** The further properties at concrete inputs *)

Lemma generate_question_drops_label_witness :
  let r := generate_question (reply_with "  Question: What is a budget?  ")
             "budgeting" sample_state in
  fst r = inr "What is a budget?" /\
  current_question (self (snd r)) = "What is a budget?".
Proof.
  apply (generate_question_drops_label
           (reply_with "  Question: What is a budget?  ") "budgeting"
           sample_state "  Question: What is a budget?  " " What is a budget?");
    reflexivity.
Defined.

Lemma generate_answer_returns_stored_witness :
  exists answer,
    generate_answer chat_down unanswered_state
    = (inr answer,
       after_call unanswered_state (answer_prompt "What does APR stand for?")
         {| current_question := "What does APR stand for?";
            correct_answer := answer |}
         [CorrectAnswer]) /\
    answer = "Unable to generate answer at this time.".
Proof.
  destruct (generate_answer_returns_stored chat_down unanswered_state)
    as (answer & Hrun & Hfail).
  - discriminate.
  - exists answer. split; [exact Hrun|].
    apply (Hfail (OtherException "quota exceeded")). reflexivity.
Defined.

Lemma generate_answer_drops_label_witness :
  let r := generate_answer (reply_with "Answer: Annual percentage rate")
             unanswered_state in
  fst r = inr "Annual percentage rate" /\
  correct_answer (self (snd r)) = "Annual percentage rate".
Proof.
  apply (generate_answer_drops_label
           (reply_with "Answer: Annual percentage rate") unanswered_state
           "Answer: Annual percentage rate" " Annual percentage rate");
    first [discriminate|reflexivity].
Defined.

Lemma evaluate_answer_lazy_answer_witness :
  exists rest,
    let st' := snd (evaluate_answer
                      (scripted [inr "Annual percentage rate"; inr "CORRECT"])
                      sample_encoder sample_pinecone PineconeIndex
                      "annual percentage rate" unanswered_state) in
    correct_answer (self st') = "Annual percentage rate" /\
    calls st'
    = [SendMessage (answer_prompt "What does APR stand for?");
       SendMessage (safety_instruction +:+ " "
                    +:+ evaluation_instruction "What does APR stand for?"
                          "annual percentage rate" "Annual percentage rate")]
      ++ rest /\
    chat_calls rest = 0.
Proof.
  destruct (evaluate_answer_lazy_answer
              (scripted [inr "Annual percentage rate"; inr "CORRECT"])
              sample_encoder sample_pinecone PineconeIndex
              "annual percentage rate" unanswered_state)
    as (answer & rest & Hg & Ha & _ & Hc & Hr).
  - discriminate.
  - reflexivity.
  - injection Hg as <-. exists rest. cbv zeta. by rewrite Ha, Hc.
Defined.

Lemma evaluate_answer_no_lookup_witness :
  calls (snd (evaluate_answer (reply_with "CORRECT") sample_encoder
                sample_pinecone PineconeIndex "annual percentage rate"
                sample_state))
  = [SendMessage (grading_prompt sample_state "annual percentage rate")].
Proof.
  apply (evaluate_answer_no_lookup (reply_with "CORRECT") sample_encoder
           sample_pinecone PineconeIndex "annual percentage rate"
           sample_state "CORRECT").
  - discriminate.
  - reflexivity.
  - left. reflexivity.
Defined.

Lemma get_relevant_resource_first_match_witness :
  get_relevant_resource sample_encoder
    (fun _ _ _ => inr [ {[ "link" := "https://example.org/apr" ]};
                        {[ "title" := "Second" ]} ])
    PineconeIndex "Annual percentage rate" sample_state
  = (inr (Some {[ "title" := "Financial Resource";
                  "link" := "https://example.org/apr";
                  "description" := "" ]}),
     {| self := self sample_state;
        calls := [Encode "Annual percentage rate";
                  Query "auto_loan_resources" [3; 1; 4] 1 true];
        stores := [] |}).
Proof.
  etrans.
  - apply (get_relevant_resource_first_match sample_encoder
             (fun _ _ _ => inr [ {[ "link" := "https://example.org/apr" ]};
                                 {[ "title" := "Second" ]} ])
             "Annual percentage rate" sample_state [3; 1; 4]
             [ {[ "link" := "https://example.org/apr" ]};
               {[ "title" := "Second" ]} ]);
      reflexivity.
  - vm_compute. reflexivity.
Defined.

Lemma evaluate_answer_resource_witness :
  exists result st',
    evaluate_answer (reply_with "INCORRECT") sample_encoder sample_pinecone
      PineconeIndex "a monthly fee" sample_state = (inr result, st') /\
    result !! "message" = Some (VStr "INCORRECT") /\
    result !! "correct_answer" = Some (VStr "Annual percentage rate") /\
    result !! "resource"
    = Some (VDict {[ "title" := "Loans 101"; "link" := "#";
                     "description" := "" ]}).
Proof.
  apply (evaluate_answer_resource (reply_with "INCORRECT") sample_encoder
           sample_pinecone PineconeIndex "a monthly fee" sample_state
           "INCORRECT").
  - discriminate.
  - reflexivity.
Defined.

Lemma generate_question_with_answer_well_formed_witness :
  let r := generate_question_with_answer (reply_with scenario_text)
             "budgeting" fresh_state in
  fst r = inr "How much should you save?" /\
  current_question (self (snd r)) = "How much should you save?" /\
  correct_answer (self (snd r)) = "At least 20% of income.".
Proof.
  apply (generate_question_with_answer_well_formed (reply_with scenario_text)
           "budgeting" fresh_state scenario_text
           (" How much should you save?" +:+ nl) " At least 20% of income.");
    reflexivity.
Defined.

Lemma evaluate_after_generate_question_witness :
  let st1 := snd (generate_question
                    (scripted [inr "What is a credit score?"; inr "INCORRECT"])
                    "credit" sample_state) in
  let st2 := snd (evaluate_answer
                    (scripted [inr "What is a credit score?"; inr "INCORRECT"])
                    sample_encoder sample_pinecone NoneObject
                    "a number" st1) in
  current_question (self st1) = "What is a credit score?" /\
  correct_answer (self st2) = "Annual percentage rate" /\
  exists rest,
    calls st2
    = calls st1
      ++ SendMessage (safety_instruction +:+ " "
                      +:+ evaluation_instruction "What is a credit score?"
                            "a number" "Annual percentage rate")
         :: rest /\
    chat_calls rest = 0.
Proof.
  split; [reflexivity|].
  apply (evaluate_after_generate_question
           (scripted [inr "What is a credit score?"; inr "INCORRECT"])
           sample_encoder sample_pinecone NoneObject "credit" "a number"
           sample_state); discriminate.
Defined.

Lemma api_submit_answer_blank_witness :
  api_submit_answer int_truthy int_class sample_py_str (reply_with "CORRECT")
    sample_encoder sample_pinecone ViewFunction
    (post (JObj {[ "answer" := JStr "   " ]})) sample_state
  = (inr (failure "Answer cannot be empty" 400), sample_state)
  /\
  api_submit_answer int_truthy int_class sample_py_str (reply_with "CORRECT")
    sample_encoder sample_pinecone ViewFunction
    (post JNull) sample_state
  = (inr (failure "Answer cannot be empty" 400), sample_state).
Proof.
  split.
  - apply (api_submit_answer_blank int_truthy int_class sample_py_str
             (reply_with "CORRECT") sample_encoder sample_pinecone ViewFunction
             (post (JObj {[ "answer" := JStr "   " ]})) sample_state
             (JObj {[ "answer" := JStr "   " ]}) {[ "answer" := JStr "   " ]});
      [reflexivity|reflexivity|reflexivity|].
    right. exists "   ". split; reflexivity.
  - apply (api_submit_answer_blank int_truthy int_class sample_py_str
             (reply_with "CORRECT") sample_encoder sample_pinecone ViewFunction
             (post JNull) sample_state JNull ∅);
      [reflexivity|reflexivity|reflexivity|].
    left. reflexivity.
Defined.

Lemma api_submit_answer_evaluates_witness :
  exists evaluation,
    fst (evaluate_answer chat_down sample_encoder sample_pinecone ViewFunction
           " a monthly fee" sample_state) = inr evaluation /\
    api_submit_answer int_truthy int_class sample_py_str chat_down
      sample_encoder sample_pinecone ViewFunction
      (post (JObj {[ "answer" := JStr " a monthly fee" ]})) sample_state
    = (inr (success "evaluation" (JObj (value_to_json <$> evaluation))),
       snd (evaluate_answer chat_down sample_encoder sample_pinecone
              ViewFunction " a monthly fee" sample_state)).
Proof.
  apply (api_submit_answer_evaluates int_truthy int_class sample_py_str
           chat_down sample_encoder sample_pinecone ViewFunction
           (post (JObj {[ "answer" := JStr " a monthly fee" ]})) sample_state
           (JObj {[ "answer" := JStr " a monthly fee" ]})
           {[ "answer" := JStr " a monthly fee" ]} " a monthly fee");
    reflexivity.
Defined.

Lemma api_submit_answer_server_error_witness :
  api_submit_answer int_truthy int_class sample_py_str (reply_with "CORRECT")
    sample_encoder sample_pinecone ViewFunction
    {| method := POST; get_json := inl (OtherException "415 Unsupported Media Type") |}
    sample_state
  = (inr (failure "415 Unsupported Media Type" 500), sample_state)
  /\
  (exists text,
     api_submit_answer int_truthy int_class sample_py_str (reply_with "CORRECT")
       sample_encoder sample_pinecone ViewFunction
       (post (JObj {[ "answer" := JNum 42%Z ]})) sample_state
     = (inr (failure text 500), sample_state)).
Proof.
  split.
  - apply (proj1 (api_submit_answer_server_error int_truthy int_class
                    sample_py_str (reply_with "CORRECT") sample_encoder
                    sample_pinecone ViewFunction
                    {| method := POST;
                       get_json := inl (OtherException "415 Unsupported Media Type") |}
                    sample_state eq_refl)
             (OtherException "415 Unsupported Media Type")).
    reflexivity.
  - apply (proj2 (proj2 (api_submit_answer_server_error int_truthy int_class
                    sample_py_str (reply_with "CORRECT") sample_encoder
                    sample_pinecone ViewFunction
                    (post (JObj {[ "answer" := JNum 42%Z ]}))
                    sample_state eq_refl))
             (JObj {[ "answer" := JNum 42%Z ]})
             {[ "answer" := JNum 42%Z ]} (JNum 42%Z));
      [reflexivity|reflexivity|reflexivity|discriminate].
Defined.

Lemma api_reset_then_submit_witness :
  let st1 := snd (api_reset_chat (post JNull) sample_state) in
  self st1 = init /\
  calls st1 = calls sample_state /\
  api_submit_answer int_truthy int_class sample_py_str (reply_with "CORRECT")
    sample_encoder sample_pinecone ViewFunction
    (post (JObj {[ "answer" := JStr "Annual percentage rate" ]})) st1
  = (inr (success "evaluation" (JObj (value_to_json <$> no_question_result))),
     st1).
Proof.
  apply (api_reset_then_submit int_truthy int_class sample_py_str
           (reply_with "CORRECT") sample_encoder sample_pinecone ViewFunction
           (post JNull)
           (post (JObj {[ "answer" := JStr "Annual percentage rate" ]}))
           sample_state
           (JObj {[ "answer" := JStr "Annual percentage rate" ]})
           {[ "answer" := JStr "Annual percentage rate" ]}
           "Annual percentage rate");
    reflexivity.
Defined.

Lemma api_generate_question_ok_witness :
  exists question st',
    api_generate_question int_truthy int_class sample_py_str chat_down
      (post JNull) fresh_state
    = (inr (success "question" (JStr question)), st') /\
    current_question (self st') = question /\
    calls st' = [SendMessage (combined_prompt "financial literacy")].
Proof.
  destruct (api_generate_question_ok int_truthy int_class sample_py_str
              chat_down (post JNull) fresh_state JNull ∅)
    as (question & st' & Hrun & Hq & Hc); [reflexivity..|].
  exists question, st'. split; [exact Hrun|]. split; [exact Hq|exact Hc].
Defined.
